(** * composable-fetcher: the request executor and its helpers

    A shallow embedding of [src/functions/composable-fetcher.functions.ts]
    (resolveHeaders, toError, isQueryMethod, hasErrorString,
    decodeErrorBody and the [execute] closure built by
    [createComposableFetcherFunctions]) together with the types of
    [src/entity/composable-fetcher.interfaces.ts].

    Conventions of the embedding.
    - JavaScript values ([unknown]) are the data that JSON text denotes,
      plus [undefined]: null, booleans, the integers a double holds
      exactly, strings (sequences of 8-bit code units), arrays, and plain
      objects, whose fields are listed in property order.  Functions,
      symbols, bigints and objects with accessors or cycles are not values
      of the model; [BodyValue] adds them for the request body, which
      the executor serializes: the one place that tells them apart.
    - In the executor, collaborators keep to their declared types: a
      schema's [validate] and a message extractor are total functions, and
      the observability sink returns without throwing.  The transport and
      [json()] may reject, and so may the recovery hook.  Module
      [Fallible] restates the error-body decoder over a [validate] and an
      extractor that may throw.
    - Header maps ([Record<string, string>]) are finite maps from strings
      to strings; a map may hold the key [__proto__] as an own property.
    - A promise is the computation that settles it: [M A] threads the world
      and ends in [Resolved a] or [Rejected t].  [await] is [bind].
    - The world carries the state of everything outside the executor (the
      server behind the transport, the clock, whatever the hooks close over)
      and a log of the calls the executor makes to its collaborators. *)

From Stdlib Require Import ZArith String Ascii List FunctionalExtensionality.
From stdpp Require Import gmap strings list pretty.

#[local] Set Warnings "-register-all".

Local Open Scope string_scope.
Local Open Scope list_scope.
Local Open Scope Z_scope.

(** ** JavaScript values *)

(** The integers a double holds exactly ([Number.isSafeInteger]): on
    these [Number::toString] prints the decimal digits. *)
Definition MAX_SAFE_INTEGER : Z := 9007199254740991.

Record SafeInteger : Type := safe {
  int_value : Z;
  int_safe : (Z.abs int_value <=? MAX_SAFE_INTEGER) = true
}.

Inductive value : Type :=
| VUndefined
| VNull
| VBool (b : bool)
| VNum (n : SafeInteger)
| VStr (s : string)
| VArr (items : list value)
| VObj (fields : list (string * value)).

(** [v !== undefined] *)
Definition is_defined (v : value) : bool :=
  match v with VUndefined => false | _ => true end.

(** [typeof v] *)
Definition typeof (v : value) : string :=
  match v with
  | VUndefined => "undefined"
  | VNull => "object"
  | VBool _ => "boolean"
  | VNum _ => "number"
  | VStr _ => "string"
  | VArr _ => "object"
  | VObj _ => "object"
  end.

(** Property lookup on the fields of an object, [o[k]]. *)
Fixpoint obj_get (k : string) (fields : list (string * value)) : option value :=
  match fields with
  | [] => None
  | (k', v) :: rest => if String.eqb k k' then Some v else obj_get k rest
  end.

(** [k in v] for a value whose [typeof] is object and that is not null:
    an array has no string-named data property. *)
Definition has_property (k : string) (v : value) : bool :=
  match v with
  | VObj fields => bool_decide (is_Some (obj_get k fields))
  | _ => false
  end.

(** [v[k]]: a missing property reads as [undefined]. *)
Definition get_property (k : string) (v : value) : value :=
  match v with
  | VObj fields => default VUndefined (obj_get k fields)
  | _ => VUndefined
  end.

(** ** The platform's string conversions *)

Module Platform.

Definition dquote : string := String "034"%char EmptyString.
Definition backslash : string := String "092"%char EmptyString.

(** [Number::toString] on a safe integer. *)
Definition Number_toString (n : SafeInteger) : string :=
  pretty (int_value n).

Definition hex_digit (n : N) : ascii :=
  if (n <? 10)%N then ascii_of_N (48 + n) else ascii_of_N (87 + n).

(** One code unit of [QuoteJSONString]. *)
Definition quote_char (c : ascii) : string :=
  let n := N_of_ascii c in
  if (n =? 8)%N then backslash +:+ "b"
  else if (n =? 9)%N then backslash +:+ "t"
  else if (n =? 10)%N then backslash +:+ "n"
  else if (n =? 12)%N then backslash +:+ "f"
  else if (n =? 13)%N then backslash +:+ "r"
  else if (n =? 34)%N then backslash +:+ dquote
  else if (n =? 92)%N then backslash +:+ backslash
  else if (n <? 32)%N then
    backslash +:+ "u00" +:+
    String (hex_digit (n / 16)) (String (hex_digit (n mod 16)) EmptyString)
  else String c EmptyString.

Fixpoint quote_chars (s : string) : string :=
  match s with
  | EmptyString => EmptyString
  | String c rest => quote_char c +:+ quote_chars rest
  end.

Definition QuoteJSONString (s : string) : string :=
  dquote +:+ quote_chars s +:+ dquote.

Fixpoint join (sep : string) (parts : list string) : string :=
  match parts with
  | [] => EmptyString
  | [p] => p
  | p :: rest => p +:+ sep +:+ join sep rest
  end.

(** [SerializeJSONProperty]: [None] is [undefined].  An undefined array
    element prints as null, an undefined property is left out. *)
Fixpoint SerializeJSONProperty (v : value) : option string :=
  match v with
  | VUndefined => None
  | VNull => Some "null"
  | VBool true => Some "true"
  | VBool false => Some "false"
  | VNum n => Some (Number_toString n)
  | VStr s => Some (QuoteJSONString s)
  | VArr items =>
      Some ("[" +:+
            join "," (map (fun x => default "null" (SerializeJSONProperty x)) items)
            +:+ "]")
  | VObj fields =>
      Some ("{" +:+
            join "," (omap (fun kv =>
                              match SerializeJSONProperty (snd kv) with
                              | Some s => Some (QuoteJSONString (fst kv) +:+ ":" +:+ s)
                              | None => None
                              end) fields)
            +:+ "}")
  end.

(** [JSON.stringify(v)] with no replacer and no indentation. *)
Definition JSON_stringify (v : value) : option string := SerializeJSONProperty v.

(** [String(v)]: [Array.prototype.join] prints null and undefined
    elements as the empty string. *)
Fixpoint String_of (v : value) : string :=
  match v with
  | VUndefined => "undefined"
  | VNull => "null"
  | VBool true => "true"
  | VBool false => "false"
  | VNum n => Number_toString n
  | VStr s => s
  | VArr items =>
      join "," (map (fun x => match x with
                              | VUndefined | VNull => EmptyString
                              | _ => String_of x
                              end) items)
  | VObj _ => "[object Object]"
  end.

(** Keys that an object lists in insertion order: JavaScript moves keys
    that are array indices, which are strings of digits, to the front. *)
Definition is_digit (c : ascii) : bool :=
  let n := N_of_ascii c in (48 <=? n)%N && (n <=? 57)%N.

Fixpoint all_digits (s : string) : bool :=
  match s with
  | EmptyString => true
  | String c rest => is_digit c && all_digits rest
  end.

Definition insertion_ordered (fields : list (string * value)) : bool :=
  bool_decide (NoDup (map fst fields))
  && forallb (fun kv => negb (all_digits (fst kv))) fields.

End Platform.

(** ** Header maps and the header resolver *)

Abbreviation Headers := (gmap string string).

(** [target[k] = v], the [[Set]] of a string on an ordinary object.  An
    object with no own property [__proto__] finds the accessor of
    [Object.prototype], whose setter ignores a value that is neither an
    object nor null: the write is lost. *)
Definition OrdinarySet (k v : string) (target : Headers) : Headers :=
  if String.eqb k "__proto__" then
    match target !! k with
    | Some _ => <[k := v]> target
    | None => target
    end
  else <[k := v]> target.

(** [Object.assign(target, ...sources)]: every own property of every
    source that is not undefined is written to the target with [[Set]],
    in order. *)
Definition Object_assign (target : Headers) (sources : list (option Headers)) : Headers :=
  foldl (fun acc src =>
           match src with
           | Some m => map_fold OrdinarySet acc m
           | None => acc
           end) target sources.

Definition resolveHeaders (layers : list (option Headers)) : Headers :=
  Object_assign {[ "Accept" := "application/json" ]} layers.

(** ** Classified errors and their throwable form *)

Inductive FetchError : Type :=
| NetworkError (message : string)
| HttpError (status : Z) (statusText : string) (message : string) (data : value)
| ParseError (message : string) (issues : list string).

(** The [type] tag of the union. *)
Definition fe_type (fe : FetchError) : string :=
  match fe with
  | NetworkError _ => "network"
  | HttpError _ _ _ _ => "http"
  | ParseError _ _ => "parse"
  end.

Definition fe_message (fe : FetchError) : string :=
  match fe with
  | NetworkError m => m
  | HttpError _ _ m _ => m
  | ParseError m _ => m
  end.

(** An instance of [Error], with the field [toError] attaches. *)
Record JsError : Type := mkError {
  err_name : string;
  err_message : string;
  err_fetchError : option FetchError
}.

(** What a [throw] or a rejected promise carries: an [Error] instance or
    any other value. *)
Inductive Thrown : Type :=
| ThrowError (e : JsError)
| ThrowValue (v : value).

Definition toError (fe : FetchError) : JsError :=
  {| err_name := "FetchError." +:+ fe_type fe;
     err_message := fe_message fe;
     err_fetchError := Some fe |}.

Definition isQueryMethod (method : string) : bool :=
  String.eqb method "GET" || String.eqb method "HEAD" || String.eqb method "OPTIONS".

(** ** Request bodies of any kind *)

(** What a request body can be: the data of [value], or one of the values
    outside it, as far as [JSON.stringify] tells them apart (with the
    built-in prototypes, and no [toJSON] method of their own). *)
Inductive BodyValue : Type :=
| Data (v : value)
| FunctionValue
| SymbolValue
| BigIntValue (message : string)
| CyclicObject (message : string).

(** [b !== undefined] *)
Definition body_defined (b : BodyValue) : bool :=
  match b with
  | Data v => is_defined v
  | _ => true
  end.

(** The [TypeError] of [JSON.stringify]; its message is the engine's, and
    comes with the value. *)
Definition not_serializable (message : string) : JsError :=
  {| err_name := "TypeError"; err_message := message; err_fetchError := None |}.

(** [JSON.stringify(b)]: [undefined] for a function or a symbol, a
    [TypeError] for a bigint or a cyclic object. *)
Definition stringify_body (b : BodyValue) : JsError + option string :=
  match b with
  | Data v => inr (Platform.JSON_stringify v)
  | FunctionValue | SymbolValue => inr None
  | BigIntValue message | CyclicObject message => inl (not_serializable message)
  end.

(** ** Standard Schema *)

Record Issue : Type := { issue_message : string }.

Inductive StandardResult : Type :=
| SRValue (v : value)
| SRIssues (issues : list Issue).

Record StandardSchema : Type := { validate : value -> StandardResult }.

(** ** Promises *)

Inductive Completion (A : Type) : Type :=
| Resolved (a : A)
| Rejected (t : Thrown).
Arguments Resolved {A} a.
Arguments Rejected {A} t.

(** ** Transport, events and the log of collaborator calls *)

Record RequestInit : Type := {
  init_method : string;
  init_headers : Headers;
  init_body : option string;
  init_credentials : option string;
  init_cache : option string
}.

(** A [Response]: [resp_json] is how the promise of [json()] settles. *)
Record Response : Type := {
  resp_ok : bool;
  resp_status : Z;
  resp_statusText : string;
  resp_json : Completion value
}.

Inductive Op : Type := Query | Mutate.

Record SpanEvent : Type := {
  ev_name : string;
  ev_op : Op;
  ev_url : string;
  ev_method : string;
  ev_status : option Z;
  ev_durationMs : Z;
  ev_ok : bool;
  ev_error : option FetchError
}.

Record RequestOptions : Type := { ro_headers : option Headers }.

Inductive Action : Type :=
| ActFetch (url : string) (init : RequestInit)
| ActJson (r : Response)
| ActSpan (ev : SpanEvent)
| ActCatch (error : FetchError).

Definition is_fetch (a : Action) : bool :=
  match a with ActFetch _ _ => true | _ => false end.
Definition is_json (a : Action) : bool :=
  match a with ActJson _ => true | _ => false end.
Definition is_span (a : Action) : bool :=
  match a with ActSpan _ => true | _ => false end.
Definition is_catch (a : Action) : bool :=
  match a with ActCatch _ => true | _ => false end.

Definition count (f : Action -> bool) (l : list Action) : nat :=
  length (filter (fun a => f a = true) l).

Record World (Env : Type) : Type := mkWorld {
  env : Env;
  log : list Action
}.
Arguments mkWorld {Env} env log.
Arguments env {Env} w.
Arguments log {Env} w.

(** ** The promise monad *)

Definition M (Env A : Type) : Type := World Env -> Completion A * World Env.

Definition ret {Env A} (a : A) : M Env A := fun w => (Resolved a, w).

Definition throw {Env A} (t : Thrown) : M Env A := fun w => (Rejected t, w).

Definition bind {Env A B} (m : M Env A) (k : A -> M Env B) : M Env B :=
  fun w =>
    match m w with
    | (Resolved a, w') => k a w'
    | (Rejected t, w') => (Rejected t, w')
    end.

(** [try { await m } catch (caught) { ... }] hands the settlement to the
    continuation. *)
Definition settle {Env A} (m : M Env A) : M Env (Completion A) :=
  fun w => let '(c, w') := m w in (Resolved c, w').

Definition log_action {Env} (a : Action) : M Env unit :=
  fun w => (Resolved tt, mkWorld (env w) (log w ++ [a])).

Declare Scope promise_scope.
Delimit Scope promise_scope with promise.
Notation "x <- m ;; k" := (bind m (fun x => k))
  (at level 100, m at next level, right associativity) : promise_scope.
Notation "m ;;; k" := (bind m (fun _ => k))
  (at level 100, right associativity) : promise_scope.

(** ** Collaborators and the request descriptor *)

Definition CatchHandler (Env : Type) : Type :=
  FetchError -> (option RequestOptions -> M Env value) -> M Env value.

(** [ComposableFetcherDependencies] *)
Record Deps (Env : Type) : Type := {
  d_fetch : string -> RequestInit -> Env -> Completion Response * Env;
  d_onSpan : option (SpanEvent -> Env -> Env);
  d_catch : option (CatchHandler Env);
  d_errorMessage : option (value -> string);
  d_errorSchema : option StandardSchema
}.
Arguments d_fetch {Env} _.
Arguments d_onSpan {Env} _.
Arguments d_catch {Env} _.
Arguments d_errorMessage {Env} _.
Arguments d_errorSchema {Env} _.

(** [ExecuteParams] *)
Record ExecuteParams (Env : Type) : Type := mkParams {
  p_url : string;
  p_method : string;
  p_op : Op;
  p_name : string;
  p_fallback : string;
  p_headers : Headers;
  p_body : value;
  p_schema : option StandardSchema;
  p_credentials : option string;
  p_cache : option string;
  p_errorSchema : option StandardSchema;
  p_errorMessage : option (value -> string);
  p_onSpan : option (SpanEvent -> Env -> Env);
  p_catch : option (CatchHandler Env);
  p_isRetry : option bool
}.
Arguments mkParams {Env}.
Arguments p_url {Env} _.
Arguments p_method {Env} _.
Arguments p_op {Env} _.
Arguments p_name {Env} _.
Arguments p_fallback {Env} _.
Arguments p_headers {Env} _.
Arguments p_body {Env} _.
Arguments p_schema {Env} _.
Arguments p_credentials {Env} _.
Arguments p_cache {Env} _.
Arguments p_errorSchema {Env} _.
Arguments p_errorMessage {Env} _.
Arguments p_onSpan {Env} _.
Arguments p_catch {Env} _.
Arguments p_isRetry {Env} _.

(** [a ?? b] *)
Definition coalesce {A} (a b : option A) : option A :=
  match a with Some _ => a | None => b end.
Infix "??" := coalesce (at level 45, right associativity).

(** ** hasErrorString and decodeErrorBody *)

Definition is_null (v : value) : bool :=
  match v with VNull => true | _ => false end.

Definition hasErrorString (data : value) : bool :=
  if negb (String.eqb (typeof data) "object") || is_null data then false
  else if negb (has_property "error" data) then false
  else String.eqb (typeof (get_property "error" data)) "string".

(** The narrowing [data is { error: string }] licenses reading the field
    as a string. *)
Definition as_string (v : value) : string :=
  match v with VStr s => s | _ => EmptyString end.

(** What [decodeErrorBody] resolves to: [dec_data] is [None] when the
    object has no [data] key. *)
Record Decoded : Type := { dec_message : string; dec_data : option value }.

(** [performance.now()], read off the world in whole milliseconds. *)
Class Clock (Env : Type) : Type := performance_now : Env -> Z.

Section Executor.

Context {Env : Type} {clk : Clock Env}.

Local Open Scope promise_scope.

Definition decodeErrorBody (data : value) (fallback : string)
    (errorSchema : option StandardSchema)
    (errorMessage : option (value -> string)) : M Env Decoded :=
  match errorSchema with
  | None =>
      if hasErrorString data
      then ret {| dec_message := as_string (get_property "error" data);
                  dec_data := None |}
      else ret {| dec_message := fallback; dec_data := None |}
  | Some s =>
      result <- ret (validate s data) ;;
      match result with
      | SRIssues _ => ret {| dec_message := fallback; dec_data := None |}
      | SRValue v =>
          let message :=
            match errorMessage with Some f => f v | None => fallback end in
          ret {| dec_message := message; dec_data := Some v |}
      end
  end.

Definition now : M Env Z :=
  fun w => (Resolved (performance_now (env w)), w).

(** [d.sideEffects.fetch(url, init)] *)
Definition call_fetch (d : Deps Env) (url : string) (init : RequestInit)
  : M Env Response :=
  fun w =>
    let '(c, e') := d_fetch d url init (env w) in
    (c, mkWorld e' (log w ++ [ActFetch url init])).

(** What [response.json().catch(() => undefined)] resolves to. *)
Definition json_value (response : Response) : value :=
  match resp_json response with
  | Resolved v => v
  | Rejected _ => VUndefined
  end.

(** [response.json().catch(() => undefined)] *)
Definition json_or_undefined (response : Response) : M Env value :=
  log_action (ActJson response) ;;;
  ret (json_value response).

(** The event [span] builds: the descriptor's name, op, url and method,
    the rounded elapsed time, and the fields of its argument. *)
Definition span_event (p : ExecuteParams Env) (durationMs : Z)
    (status : option Z) (ok : bool) (error : option FetchError) : SpanEvent :=
  {| ev_name := p_name p;
     ev_op := p_op p;
     ev_url := p_url p;
     ev_method := p_method p;
     ev_status := status;
     ev_durationMs := durationMs;
     ev_ok := ok;
     ev_error := error |}.

(** The local function [span]: [onSpan?.(event)]. *)
Definition span (p : ExecuteParams Env)
    (onSpan : option (SpanEvent -> Env -> Env)) (start : Z)
    (status : option Z) (ok : bool) (error : option FetchError) : M Env unit :=
  fun w =>
    match onSpan with
    | Some sink =>
        let ev :=
          span_event p (performance_now (env w) - start) status ok error in
        (Resolved tt, mkWorld (sink ev (env w)) (log w ++ [ActSpan ev]))
    | None => (Resolved tt, w)
    end.

(** [{ ...params, headers: resolveHeaders(headers, retryOptions?.headers),
     isRetry: true }] *)
Definition retry_params (p : ExecuteParams Env)
    (retryOptions : option RequestOptions) : ExecuteParams Env :=
  {| p_url := p_url p;
     p_method := p_method p;
     p_op := p_op p;
     p_name := p_name p;
     p_fallback := p_fallback p;
     p_headers :=
       resolveHeaders
         [Some (p_headers p);
          match retryOptions with Some o => ro_headers o | None => None end];
     p_body := p_body p;
     p_schema := p_schema p;
     p_credentials := p_credentials p;
     p_cache := p_cache p;
     p_errorSchema := p_errorSchema p;
     p_errorMessage := p_errorMessage p;
     p_onSpan := p_onSpan p;
     p_catch := p_catch p;
     p_isRetry := Some true |}.

(** The local function [handleError].  The promise the handler returns
    settles the call; a handler that returns nothing resolves it with
    [undefined]. *)
Definition handleError (self : ExecuteParams Env -> M Env value)
    (p : ExecuteParams Env) (isRetry : bool)
    (catchHandler : option (CatchHandler Env)) (error : FetchError)
  : M Env value :=
  match isRetry, catchHandler with
  | false, Some handler =>
      let retryFn := fun retryOptions => self (retry_params p retryOptions) in
      log_action (ActCatch error) ;;;
      handler error retryFn
  | _, _ => throw (ThrowError (toError error))
  end.

(** [caught instanceof Error ? caught.message : String(caught)] *)
Definition failure_detail (caught : Thrown) : string :=
  match caught with
  | ThrowError e => err_message e
  | ThrowValue v => Platform.String_of v
  end.

(** The [RequestInit] handed to the transport. *)
Definition request_init (p : ExecuteParams Env) : RequestInit :=
  {| init_method := p_method p;
     init_headers := p_headers p;
     init_body :=
       if is_defined (p_body p) then Platform.JSON_stringify (p_body p) else None;
     init_credentials := p_credentials p;
     init_cache := p_cache p |}.

(** The awaited call of the [try] block,
    [d.sideEffects.fetch(url, { method, headers, body: body !== undefined
    ? JSON.stringify(body) : undefined, credentials, cache })], for a body
    of any kind.  The arguments are evaluated before the call, so a
    [JSON.stringify] that throws leaves the transport uncalled. *)
Definition try_fetch (d : Deps Env) (p : ExecuteParams Env)
    (b : BodyValue) : M Env Response :=
  match (if body_defined b then stringify_body b else inr None) with
  | inl e => throw (ThrowError e)
  | inr text =>
      call_fetch d (p_url p)
        {| init_method := p_method p;
           init_headers := p_headers p;
           init_body := text;
           init_credentials := p_credentials p;
           init_cache := p_cache p |}
  end.

(** The body of [execute], with its recursive occurrence as [self]. *)
Definition execute_with (d : Deps Env) (self : ExecuteParams Env -> M Env value)
    (p : ExecuteParams Env) : M Env value :=
  let isRetry := default false (p_isRetry p) in
  let onSpan := p_onSpan p ?? d_onSpan d in
  let catchHandler := p_catch p ?? d_catch d in
  let errorSchema := p_errorSchema p ?? d_errorSchema d in
  let errorMessage := p_errorMessage p ?? d_errorMessage d in
  start <- now ;;
  let span := span p onSpan start in
  let handleError := handleError self p isRetry catchHandler in
  fetched <- settle (call_fetch d (p_url p) (request_init p)) ;;
  match fetched with
  | Rejected caught =>
      let error := NetworkError ("Network error: " +:+ failure_detail caught) in
      span None false (Some error) ;;;
      handleError error
  | Resolved response =>
      if negb (resp_ok response) then
        rawData <- json_or_undefined response ;;
        decoded <- decodeErrorBody rawData (p_fallback p) errorSchema errorMessage ;;
        let error :=
          HttpError (resp_status response) (resp_statusText response)
                    (dec_message decoded)
                    (default VUndefined (dec_data decoded)) in
        span (Some (resp_status response)) false (Some error) ;;;
        handleError error
      else
        match p_schema p with
        | None =>
            span (Some (resp_status response)) true None ;;;
            ret VUndefined
        | Some schema =>
            data <- json_or_undefined response ;;
            result <- ret (validate schema data) ;;
            match result with
            | SRIssues issues =>
                let error :=
                  ParseError "Unexpected response format"
                             (map issue_message issues) in
                span (Some (resp_status response)) false (Some error) ;;;
                handleError error
            | SRValue v =>
                span (Some (resp_status response)) true None ;;;
                ret v
            end
        end
  end.

(** [execute] calls itself only through [retryFn], which forces
    [isRetry]; an attempt with [isRetry] set builds no [retryFn].  Two
    unfoldings of the body therefore close the recursion (lemma
    [execute_unfold] below: [execute] is a fixed point of its body). *)
Definition execute (d : Deps Env) : ExecuteParams Env -> M Env value :=
  execute_with d (execute_with d (fun _ => throw (ThrowValue VUndefined))).

(** [execute] on a descriptor whose body is of any kind: the body of
    [execute] with the call of the [try] block made by [try_fetch] on the
    body [b], which stands for the field [body] of the descriptor.  The
    retry function spreads the descriptor, so a retry runs on the same
    body. *)
Definition execute_with_body (d : Deps Env)
    (self : ExecuteParams Env -> BodyValue -> M Env value)
    (p : ExecuteParams Env) (b : BodyValue) : M Env value :=
  let isRetry := default false (p_isRetry p) in
  let onSpan := p_onSpan p ?? d_onSpan d in
  let catchHandler := p_catch p ?? d_catch d in
  let errorSchema := p_errorSchema p ?? d_errorSchema d in
  let errorMessage := p_errorMessage p ?? d_errorMessage d in
  start <- now ;;
  let span := span p onSpan start in
  let handleError := handleError (fun p' => self p' b) p isRetry catchHandler in
  fetched <- settle (try_fetch d p b) ;;
  match fetched with
  | Rejected caught =>
      let error := NetworkError ("Network error: " +:+ failure_detail caught) in
      span None false (Some error) ;;;
      handleError error
  | Resolved response =>
      if negb (resp_ok response) then
        rawData <- json_or_undefined response ;;
        decoded <- decodeErrorBody rawData (p_fallback p) errorSchema errorMessage ;;
        let error :=
          HttpError (resp_status response) (resp_statusText response)
                    (dec_message decoded)
                    (default VUndefined (dec_data decoded)) in
        span (Some (resp_status response)) false (Some error) ;;;
        handleError error
      else
        match p_schema p with
        | None =>
            span (Some (resp_status response)) true None ;;;
            ret VUndefined
        | Some schema =>
            data <- json_or_undefined response ;;
            result <- ret (validate schema data) ;;
            match result with
            | SRIssues issues =>
                let error :=
                  ParseError "Unexpected response format"
                             (map issue_message issues) in
                span (Some (resp_status response)) false (Some error) ;;;
                handleError error
            | SRValue v =>
                span (Some (resp_status response)) true None ;;;
                ret v
            end
        end
  end.

Definition execute_body (d : Deps Env)
  : ExecuteParams Env -> BodyValue -> M Env value :=
  execute_with_body d
    (execute_with_body d (fun _ _ => throw (ThrowValue VUndefined))).

(** *** The worlds an attempt passes through

    [fetched] is the world once the transport has settled and left the
    environment [e1]; [parsed] the world once the body of [response] has
    been read as well; [spanned] the world once [span] has run. *)

Definition fetched (p : ExecuteParams Env) (w : World Env) (e1 : Env) : World Env :=
  mkWorld e1 (log w ++ [ActFetch (p_url p) (request_init p)]).

Definition parsed (p : ExecuteParams Env) (w : World Env) (e1 : Env)
    (response : Response) : World Env :=
  mkWorld e1 (log w ++ [ActFetch (p_url p) (request_init p); ActJson response]).

Definition spanned (d : Deps Env) (p : ExecuteParams Env) (w : World Env)
    (status : option Z) (ok : bool) (error : option FetchError)
    (w0 : World Env) : World Env :=
  snd (span p (p_onSpan p ?? d_onSpan d) (performance_now (env w)) status ok error w0).

End Executor.

(** ** The error-body decoder over collaborators that may fail

    [validate] and the message extractor are the caller's functions: the
    first may throw or return a promise that rejects, the second may
    throw.  [decodeErrorBody] awaits the one and calls the other with no
    handler around them, and [hasErrorString] applies the operator [in],
    which throws a [TypeError] on anything that is no object. *)

Module Fallible.

(** A Standard Schema whose [validate] may throw or reject. *)
Record Schema : Type := { run_validate : value -> Completion StandardResult }.

Definition Extractor : Type := value -> Completion string.

(** The schema and the extractor that keep to their types. *)
Definition of_schema (s : StandardSchema) : Schema :=
  {| run_validate := fun data => Resolved (validate s data) |}.

Definition of_extractor (f : value -> string) : Extractor :=
  fun v => Resolved (f v).

(** The [TypeError] of the operator [in]; engines word its message
    differently, and nothing below depends on it. *)
Definition in_operand_error : Thrown :=
  ThrowError (mkError "TypeError" "Cannot use 'in' operator to search for 'error'" None).

(** ['error' in data]: a [TypeError] when [data] is no object. *)
Definition error_in (data : value) : Completion bool :=
  match data with
  | VObj fields => Resolved (bool_decide (is_Some (obj_get "error" fields)))
  | VArr _ => Resolved false
  | _ => Rejected in_operand_error
  end.

(** [hasErrorString], statement by statement. *)
Definition hasErrorString (data : value) : Completion bool :=
  if negb (String.eqb (typeof data) "object") || is_null data then Resolved false
  else
    match error_in data with
    | Rejected t => Rejected t
    | Resolved false => Resolved false
    | Resolved true =>
        Resolved (String.eqb (typeof (get_property "error" data)) "string")
    end.

Section Decoder.

Context {Env : Type}.

Local Open Scope promise_scope.

(** A call that returns or throws, as a step of the promise. *)
Definition call {A} (c : Completion A) : M Env A := fun w => (c, w).

Definition decodeErrorBody (data : value) (fallback : string)
    (errorSchema : option Schema) (errorMessage : option Extractor)
  : M Env Decoded :=
  match errorSchema with
  | None =>
      narrowed <- call (hasErrorString data) ;;
      if narrowed
      then ret {| dec_message := as_string (get_property "error" data);
                  dec_data := None |}
      else ret {| dec_message := fallback; dec_data := None |}
  | Some s =>
      result <- call (run_validate s data) ;;
      match result with
      | SRIssues _ => ret {| dec_message := fallback; dec_data := None |}
      | SRValue v =>
          message <- match errorMessage with
                     | Some f => call (f v)
                     | None => ret fallback
                     end ;;
          ret {| dec_message := message; dec_data := Some v |}
      end
  end.

End Decoder.

(** A [validate] that throws, and an extractor that reads a field of a
    value that has none. *)
Definition exploding_schema : Schema :=
  {| run_validate := fun _ => Rejected (ThrowError (mkError "Error" "schema exploded" None)) |}.

Definition accepting_schema : Schema :=
  {| run_validate := fun data => Resolved (SRValue data) |}.

Definition exploding_extractor : Extractor :=
  fun _ => Rejected (ThrowError
             (mkError "TypeError" "Cannot read properties of undefined" None)).

End Fallible.

(** ** A scripted transport and sample hooks

    The transport of the unit tests: a queue of settlements, one consumed
    by each call (the mock's [mockResolvedValueOnce] and
    [mockRejectedValueOnce]); an exhausted queue rejects. *)

Module Scenario.

Definition Script : Type := list (Completion Response).

Definition failed_to_fetch : Thrown :=
  ThrowError (mkError "TypeError" "Failed to fetch" None).

Definition scripted_fetch (url : string) (init : RequestInit) (queue : Script)
  : Completion Response * Script :=
  match queue with
  | c :: rest => (c, rest)
  | [] => (Rejected failed_to_fetch, [])
  end.

(** The clock stands still. *)
#[global] Instance clock : Clock Script := fun _ => 0.

Definition respond (status : Z) (statusText : string) (body : value) : Response :=
  {| resp_ok := (200 <=? status) && (status <? 300);
     resp_status := status;
     resp_statusText := statusText;
     resp_json := Resolved body |}.

Definition unauthorized : Response := respond 401 "Unauthorized" (VObj []).
Definition server_error : Response := respond 500 "ISE" (VObj []).
Definition users_ok : Response := respond 200 "OK" (VObj [("users", VArr [])]).

Definition quiet_sink (ev : SpanEvent) (queue : Script) : Script := queue.

Definition deps (handler : option (CatchHandler Script)) : Deps Script :=
  {| d_fetch := scripted_fetch;
     d_onSpan := Some quiet_sink;
     d_catch := handler;
     d_errorMessage := None;
     d_errorSchema := None |}.

Definition any_schema : StandardSchema := {| validate := fun v => SRValue v |}.

Definition failing_schema (message : string) : StandardSchema :=
  {| validate := fun _ => SRIssues [ {| issue_message := message |} ] |}.

Definition request (body : value) (schema : option StandardSchema)
  : ExecuteParams Script :=
  {| p_url := "/api/test";
     p_method := "GET";
     p_op := Query;
     p_name := "test";
     p_fallback := "failed";
     p_headers := ∅;
     p_body := body;
     p_schema := schema;
     p_credentials := None;
     p_cache := None;
     p_errorSchema := None;
     p_errorMessage := None;
     p_onSpan := None;
     p_catch := None;
     p_isRetry := None |}.

Definition start (queue : Script) : World Script := mkWorld queue [].

(** [async (error, retry) => retry()] *)
Definition always_retry : CatchHandler Script :=
  fun error retry => retry None.

(** [async (error, retry) => { try { return await retry() }
                               catch { return retry() } }] *)
Definition retry_twice : CatchHandler Script :=
  fun error retry =>
    bind (settle (retry None))
         (fun first =>
            match first with
            | Resolved v => ret v
            | Rejected _ => retry None
            end).

(** [() => {}] *)
Definition swallow : CatchHandler Script :=
  fun error retry => ret VUndefined.

(** [async (error, retry) => retry({ headers: { Authorization } })] *)
Definition retry_with_token (token : string) : CatchHandler Script :=
  fun error retry =>
    retry (Some {| ro_headers := Some {[ "Authorization" := token ]} |}).

(** [async (error, retry) => retry({ headers })] *)
Definition retry_with_headers (h : Headers) : CatchHandler Script :=
  fun error retry => retry (Some {| ro_headers := Some h |}).

(** [() => { throw new Error(message) }] *)
Definition rethrow (message : string) : CatchHandler Script :=
  fun error retry => throw (ThrowError (mkError "Error" message None)).

(** The inits of the transport calls in a log, in call order. *)
Definition fetch_inits (l : list Action) : list RequestInit :=
  omap (fun a => match a with ActFetch _ init => Some init | _ => None end) l.

(** The errors handed to the recovery hook, in call order. *)
Definition caught_errors (l : list Action) : list FetchError :=
  omap (fun a => match a with ActCatch error => Some error | _ => None end) l.

End Scenario.

(** ** The fluent builder ([src/composable-fetcher.ts])

    [createComposableFetcher(config)] closes over a configuration;
    [url(targetUrl)] opens a builder whose setters fill eight local
    variables, and [run(method)] turns them into the dependency object and
    the descriptor it hands to [createComposableFetcherFunctions] and
    [execute].  This version of the builder names the recovery hook
    [onError]. *)

Module Builder.

(** A key of an object literal: absent, or present with a value that may
    be [undefined]. *)
Inductive Slot (A : Type) : Type :=
| Absent
| Present (v : option A).
Arguments Absent {A}.
Arguments Present {A} v.

(** [o.key] *)
Definition read {A} (s : Slot A) : option A :=
  match s with Absent => None | Present v => v end.

(** One key of [{ ...a, ...b }]. *)
Definition spread {A} (a b : Slot A) : Slot A :=
  match b with Absent => a | Present _ => b end.

Definition FetchFn (Env : Type) : Type :=
  string -> RequestInit -> Env -> Completion Response * Env.

(** [FetcherConfig] *)
Record FetcherConfig (Env : Type) : Type := {
  c_fetchFn : Slot (FetchFn Env);
  c_onSpan : Slot (SpanEvent -> Env -> Env);
  c_onError : Slot (CatchHandler Env);
  c_errorSchema : Slot StandardSchema;
  c_errorMessage : Slot (value -> string);
  c_headers : Slot Headers;
  c_credentials : Slot string;
  c_cache : Slot string
}.
Arguments c_fetchFn {Env} _.
Arguments c_onSpan {Env} _.
Arguments c_onError {Env} _.
Arguments c_errorSchema {Env} _.
Arguments c_errorMessage {Env} _.
Arguments c_headers {Env} _.
Arguments c_credentials {Env} _.
Arguments c_cache {Env} _.

(** [{}], the default of [createComposableFetcher]'s parameter. *)
Definition empty_config {Env} : FetcherConfig Env :=
  {| c_fetchFn := Absent; c_onSpan := Absent; c_onError := Absent;
     c_errorSchema := Absent; c_errorMessage := Absent; c_headers := Absent;
     c_credentials := Absent; c_cache := Absent |}.

(** [configure(next)]: the instance over [{ ...config, ...next }]. *)
Definition configure {Env} (config next : FetcherConfig Env) : FetcherConfig Env :=
  {| c_fetchFn := spread (c_fetchFn config) (c_fetchFn next);
     c_onSpan := spread (c_onSpan config) (c_onSpan next);
     c_onError := spread (c_onError config) (c_onError next);
     c_errorSchema := spread (c_errorSchema config) (c_errorSchema next);
     c_errorMessage := spread (c_errorMessage config) (c_errorMessage next);
     c_headers := spread (c_headers config) (c_headers next);
     c_credentials := spread (c_credentials config) (c_credentials next);
     c_cache := spread (c_cache config) (c_cache next) |}.

Definition no_fetch_error : JsError :=
  mkError "Error" "No fetch function available. Pass fetchFn in config." None.

(** [getFetchFn]: [globalFetch] is [globalThis.fetch] when that is a
    function. *)
Definition getFetchFn {Env} (globalFetch : option (FetchFn Env))
    (config : FetcherConfig Env) : Thrown + FetchFn Env :=
  match read (c_fetchFn config) with
  | Some f => inr f
  | None =>
      match globalFetch with
      | Some g => inr g
      | None => inl (ThrowError no_fetch_error)
      end
  end.

(** The local variables of one builder: [_schema], [_errorSchema],
    [_errorMessage], [_name], [_fallback], [_headers], [_body] and
    [_onError]. *)
Record State (Env : Type) : Type := {
  b_schema : option StandardSchema;
  b_errorSchema : option StandardSchema;
  b_errorMessage : option (value -> string);
  b_name : string;
  b_fallback : string;
  b_headers : option Headers;
  b_body : value;
  b_onError : option (CatchHandler Env)
}.
Arguments b_schema {Env} _.
Arguments b_errorSchema {Env} _.
Arguments b_errorMessage {Env} _.
Arguments b_name {Env} _.
Arguments b_fallback {Env} _.
Arguments b_headers {Env} _.
Arguments b_body {Env} _.
Arguments b_onError {Env} _.

(** The variables as [url(targetUrl)] declares them. *)
Definition url {Env} : State Env :=
  {| b_schema := None; b_errorSchema := None; b_errorMessage := None;
     b_name := EmptyString; b_fallback := EmptyString; b_headers := None;
     b_body := VUndefined; b_onError := None |}.

Definition schema {Env} (s : StandardSchema) (st : State Env) : State Env :=
  {| b_schema := Some s; b_errorSchema := b_errorSchema st;
     b_errorMessage := b_errorMessage st; b_name := b_name st;
     b_fallback := b_fallback st; b_headers := b_headers st;
     b_body := b_body st; b_onError := b_onError st |}.

(** [errorSchema(s, messageExtractor?)] assigns both variables. *)
Definition errorSchema {Env} (s : StandardSchema)
    (messageExtractor : option (value -> string)) (st : State Env) : State Env :=
  {| b_schema := b_schema st; b_errorSchema := Some s;
     b_errorMessage := messageExtractor; b_name := b_name st;
     b_fallback := b_fallback st; b_headers := b_headers st;
     b_body := b_body st; b_onError := b_onError st |}.

Definition name {Env} (n : string) (st : State Env) : State Env :=
  {| b_schema := b_schema st; b_errorSchema := b_errorSchema st;
     b_errorMessage := b_errorMessage st; b_name := n;
     b_fallback := b_fallback st; b_headers := b_headers st;
     b_body := b_body st; b_onError := b_onError st |}.

Definition fallback {Env} (message : string) (st : State Env) : State Env :=
  {| b_schema := b_schema st; b_errorSchema := b_errorSchema st;
     b_errorMessage := b_errorMessage st; b_name := b_name st;
     b_fallback := message; b_headers := b_headers st;
     b_body := b_body st; b_onError := b_onError st |}.

Definition headers {Env} (h : Headers) (st : State Env) : State Env :=
  {| b_schema := b_schema st; b_errorSchema := b_errorSchema st;
     b_errorMessage := b_errorMessage st; b_name := b_name st;
     b_fallback := b_fallback st; b_headers := Some h;
     b_body := b_body st; b_onError := b_onError st |}.

Definition body {Env} (b : value) (st : State Env) : State Env :=
  {| b_schema := b_schema st; b_errorSchema := b_errorSchema st;
     b_errorMessage := b_errorMessage st; b_name := b_name st;
     b_fallback := b_fallback st; b_headers := b_headers st;
     b_body := b; b_onError := b_onError st |}.

Definition onError {Env} (handler : CatchHandler Env) (st : State Env) : State Env :=
  {| b_schema := b_schema st; b_errorSchema := b_errorSchema st;
     b_errorMessage := b_errorMessage st; b_name := b_name st;
     b_fallback := b_fallback st; b_headers := b_headers st;
     b_body := b_body st; b_onError := Some handler |}.

(** [a || b] on strings: the empty string is the one falsy string. *)
Definition or_else (a b : string) : string :=
  if String.eqb a EmptyString then b else a.

(** What [run] passes on: the dependency object given to
    [createComposableFetcherFunctions] and the descriptor given to
    [execute]. *)
Record RunCall (Env : Type) : Type := {
  rc_fetch : FetchFn Env;
  rc_onSpan : option (SpanEvent -> Env -> Env);
  rc_onError : option (CatchHandler Env);
  rc_errorMessage : option (value -> string);
  rc_errorSchema : option StandardSchema;
  rc_params : ExecuteParams Env
}.
Arguments rc_fetch {Env} _.
Arguments rc_onSpan {Env} _.
Arguments rc_onError {Env} _.
Arguments rc_errorMessage {Env} _.
Arguments rc_errorSchema {Env} _.
Arguments rc_params {Env} _.

(** The descriptor [run(method)] builds. *)
Definition run_params {Env} (config : FetcherConfig Env) (targetUrl : string)
    (st : State Env) (method : string) : ExecuteParams Env :=
  let isMutation := negb (isQueryMethod method) in
  {| p_url := targetUrl;
     p_method := method;
     p_op := if isMutation then Mutate else Query;
     p_name := or_else (b_name st) (method +:+ " " +:+ targetUrl);
     p_fallback := or_else (b_fallback st) ("Request failed: " +:+ targetUrl);
     p_headers :=
       resolveHeaders
         [read (c_headers config);
          b_headers st;
          if isMutation then Some {[ "Content-Type" := "application/json" ]}
          else None];
     p_body := if isMutation then b_body st else VUndefined;
     p_schema := b_schema st;
     p_credentials := Some (default "include" (read (c_credentials config)));
     p_cache := Some (default "no-store" (read (c_cache config)));
     p_errorSchema := None;
     p_errorMessage := None;
     p_onSpan := None;
     p_catch := None;
     p_isRetry := None |}.

(** [run(method)]: [getFetchFn()] throws before anything is called. *)
Definition run {Env} (globalFetch : option (FetchFn Env))
    (config : FetcherConfig Env) (targetUrl : string) (st : State Env)
    (method : string) : Thrown + RunCall Env :=
  match getFetchFn globalFetch config with
  | inl t => inl t
  | inr f =>
      inr {| rc_fetch := f;
             rc_onSpan := read (c_onSpan config);
             rc_onError := b_onError st ?? read (c_onError config);
             rc_errorMessage := b_errorMessage st ?? read (c_errorMessage config);
             rc_errorSchema := b_errorSchema st ?? read (c_errorSchema config);
             rc_params := run_params config targetUrl st method |}
  end.

End Builder.

(** ** The transports of the end-to-end tests ([src/e2e/index.ts]) *)

Module TestDoubles.

Definition failed_to_fetch : Thrown :=
  ThrowError (mkError "TypeError" "Failed to fetch" None).

(** [createFailingFetch()] *)
Definition createFailingFetch {Env} : Builder.FetchFn Env :=
  fun url init e => (Rejected failed_to_fetch, e).

(** [createIntermittentFetch(realFetch, failCount)]: the closure variable
    [failures] is the first component of the environment. *)
Definition createIntermittentFetch {Env} (realFetch : Builder.FetchFn Env)
    (failCount : Z) : Builder.FetchFn (Z * Env) :=
  fun url init s =>
    let '(failures, e) := s in
    if failures <? failCount
    then (Rejected failed_to_fetch, (failures + 1, e))
    else let '(c, e') := realFetch url init e in (c, (failures, e')).

(** The clock does not read the counter. *)
#[global] Instance counted_clock {Env} {clk : Clock Env} : Clock (Z * Env) :=
  fun s => performance_now (snd s).

(** [n] calls in a row with the same arguments: the settlements, oldest
    first, and the environment they leave. *)
Fixpoint call_times {Env} (fetch : Builder.FetchFn Env) (url : string)
    (init : RequestInit) (n : nat) (e : Env) : list (Completion Response) * Env :=
  match n with
  | O => ([], e)
  | S n' =>
      let '(c, e1) := fetch url init e in
      let '(rest, e2) := call_times fetch url init n' e1 in
      (c :: rest, e2)
  end.

End TestDoubles.

(** ** The test utilities ([src/functions/composable-fetcher.functions.mock.ts]) *)

Module Mock.

(** [createMockSchema(output)]: [validate] returns the value it is given. *)
Definition createMockSchema (output : value) : StandardSchema :=
  {| validate := fun v => SRValue v |}.

(** [createFailingMockSchema(message)] *)
Definition createFailingMockSchema (message : string) : StandardSchema :=
  {| validate := fun _ => SRIssues [ {| issue_message := message |} ] |}.

(** [MockResponseConfig]; an absent or undefined [body] takes the default
    of the destructuring, so the field is a plain value. *)
Record MockResponseConfig : Type := {
  m_status : option Z;
  m_statusText : option string;
  m_body : value;
  m_ok : option bool
}.

(** The response object [mockFetchResponse] queues. *)
Definition mock_response (config : MockResponseConfig) : Response :=
  let status := default 200 (m_status config) in
  let statusText := default "OK" (m_statusText config) in
  let body := if is_defined (m_body config) then m_body config else VObj [] in
  {| resp_ok := default ((200 <=? status) && (status <? 300)) (m_ok config);
     resp_status := status;
     resp_statusText := statusText;
     resp_json := Resolved body |}.

(** [mockFetchResponse(fetchMock, config)] and
    [mockFetchNetworkError(fetchMock)] on the queue of once-values of the
    mock function. *)
Definition mockFetchResponse (queue : Scenario.Script) (config : MockResponseConfig)
  : Scenario.Script :=
  queue ++ [Resolved (mock_response config)].

Definition mockFetchNetworkError (queue : Scenario.Script) : Scenario.Script :=
  queue ++ [Rejected (ThrowError (mkError "TypeError" "Failed to fetch" None))].

End Mock.

(** ** Sample descriptors and configurations *)

Module Samples.

(** A descriptor that states nothing optional. *)
Definition request {Env : Type} : ExecuteParams Env :=
  {| p_url := "/api/flaky";
     p_method := "GET";
     p_op := Query;
     p_name := "flaky";
     p_fallback := "failed";
     p_headers := {[ "Accept" := "application/json" ]};
     p_body := VUndefined;
     p_schema := None;
     p_credentials := None;
     p_cache := None;
     p_errorSchema := None;
     p_errorMessage := None;
     p_onSpan := None;
     p_catch := None;
     p_isRetry := None |}.

(** The descriptor of the unit tests with headers of its own. *)
Definition with_headers (h : Headers) : ExecuteParams Scenario.Script :=
  {| p_url := "/api/test";
     p_method := "GET";
     p_op := Query;
     p_name := "test";
     p_fallback := "failed";
     p_headers := h;
     p_body := VUndefined;
     p_schema := None;
     p_credentials := None;
     p_cache := None;
     p_errorSchema := None;
     p_errorMessage := None;
     p_onSpan := None;
     p_catch := None;
     p_isRetry := None |}.

(** A descriptor with its own sink, hook, error schema and extractor. *)
Definition own_everything : ExecuteParams Scenario.Script :=
  {| p_url := "/api/test";
     p_method := "POST";
     p_op := Mutate;
     p_name := "test";
     p_fallback := "failed";
     p_headers := ∅;
     p_body := VUndefined;
     p_schema := None;
     p_credentials := None;
     p_cache := None;
     p_errorSchema := Some Scenario.any_schema;
     p_errorMessage := Some (fun _ => "decoded");
     p_onSpan := Some Scenario.quiet_sink;
     p_catch := Some Scenario.swallow;
     p_isRetry := None |}.

(** [createComposableFetcher({ fetchFn, errorMessage })] *)
Definition config : Builder.FetcherConfig Scenario.Script :=
  {| Builder.c_fetchFn := Builder.Present (Some Scenario.scripted_fetch);
     Builder.c_onSpan := Builder.Absent;
     Builder.c_onError := Builder.Absent;
     Builder.c_errorSchema := Builder.Absent;
     Builder.c_errorMessage := Builder.Present (Some (fun _ => "from the instance"));
     Builder.c_headers := Builder.Absent;
     Builder.c_credentials := Builder.Absent;
     Builder.c_cache := Builder.Absent |}.

(** Dependencies over [createIntermittentFetch(scripted, failCount)],
    with no sink. *)
Definition flaky (failCount : Z)
    (handler : option (CatchHandler (Z * Scenario.Script)))
  : Deps (Z * Scenario.Script) :=
  {| d_fetch := TestDoubles.createIntermittentFetch Scenario.scripted_fetch failCount;
     d_onSpan := None;
     d_catch := handler;
     d_errorMessage := None;
     d_errorSchema := None |}.

(** Dependencies over [createFailingFetch()]. *)
Definition offline : Deps Scenario.Script :=
  {| d_fetch := TestDoubles.createFailingFetch;
     d_onSpan := None;
     d_catch := None;
     d_errorMessage := None;
     d_errorSchema := None |}.

End Samples.

(** * Properties *)

(** ** The platform conversions on the modelled values *)

Lemma JSON_stringify_defined (v : value) :
  is_defined v = true -> is_Some (Platform.JSON_stringify v).
Proof.
  destruct v as [| |[]| | | |]; simpl; intros H; try discriminate; eauto.
Qed.

Lemma JSON_stringify_undefined : Platform.JSON_stringify VUndefined = None.
Proof. reflexivity. Qed.

(** ** The header resolver *)

Lemma OrdinarySet_lookup (k v : string) (target : Headers) (j : string) :
  target !! "__proto__" = None ->
  OrdinarySet k v target !! j
  = if String.eqb j "__proto__" then None
    else if String.eqb j k then Some v else target !! j.
Proof.
  intros Hproto. unfold OrdinarySet.
  destruct (String.eqb_spec k "__proto__") as [-> | Hk].
  - rewrite Hproto.
    destruct (String.eqb_spec j "__proto__") as [-> | Hj]; [exact Hproto | reflexivity].
  - destruct (String.eqb_spec j "__proto__") as [-> | Hj].
    + rewrite lookup_insert_ne by exact Hk. exact Hproto.
    + destruct (String.eqb_spec j k) as [-> | Hjk].
      * apply lookup_insert_eq.
      * apply lookup_insert_ne. congruence.
Qed.

Lemma map_fold_OrdinarySet (m acc : Headers) :
  acc !! "__proto__" = None ->
  map_fold OrdinarySet acc m = delete "__proto__" m ∪ acc.
Proof.
  intros Hproto.
  apply (map_fold_weak_ind
           (fun r (m' : Headers) => r = delete "__proto__" m' ∪ acc)).
  - apply map_eq. intros j.
    assert (Hnone : delete "__proto__" (∅ : Headers) !! j = None).
    { apply lookup_delete_None. right. apply lookup_empty. }
    rewrite lookup_union, Hnone. by destruct (acc !! j).
  - intros i x m' r Hi ->. apply map_eq. intros j.
    assert (Hr : (delete "__proto__" m' ∪ acc) !! "__proto__" = None).
    { by rewrite lookup_union, lookup_delete_eq, Hproto. }
    rewrite OrdinarySet_lookup by exact Hr.
    rewrite !lookup_union.
    destruct (String.eqb_spec j "__proto__") as [-> | Hj].
    + by rewrite lookup_delete_eq, Hproto.
    + rewrite !lookup_delete_ne by congruence.
      destruct (String.eqb_spec j i) as [-> | Hji].
      * rewrite lookup_insert_eq. by destruct (acc !! i).
      * by rewrite lookup_insert_ne by congruence.
Qed.

Lemma Object_assign_snoc (target : Headers) (sources : list (option Headers))
    (src : option Headers) :
  Object_assign target (sources ++ [src])
  = match src with
    | Some m => map_fold OrdinarySet (Object_assign target sources) m
    | None => Object_assign target sources
    end.
Proof.
  unfold Object_assign. rewrite foldl_app. simpl. by destruct src.
Qed.

Lemma resolveHeaders_nil : resolveHeaders [] = {[ "Accept" := "application/json" ]}.
Proof. reflexivity. Qed.

(** The resolver never returns an own key [__proto__]. *)
Lemma resolveHeaders_no_proto (layers : list (option Headers)) :
  resolveHeaders layers !! "__proto__" = None.
Proof.
  induction layers as [| src layers IH] using rev_ind.
  - by rewrite resolveHeaders_nil.
  - unfold resolveHeaders in *. rewrite Object_assign_snoc.
    destruct src as [m |]; [| exact IH].
    rewrite map_fold_OrdinarySet by exact IH.
    by rewrite lookup_union, lookup_delete_eq, IH.
Qed.

Lemma resolveHeaders_snoc (layers : list (option Headers)) (src : option Headers) :
  resolveHeaders (layers ++ [src])
  = match src with
    | Some m => delete "__proto__" m ∪ resolveHeaders layers
    | None => resolveHeaders layers
    end.
Proof.
  pose proof (resolveHeaders_no_proto layers) as Hproto.
  unfold resolveHeaders in *. rewrite Object_assign_snoc.
  destruct src as [m |]; [| reflexivity].
  by apply map_fold_OrdinarySet.
Qed.

Lemma resolveHeaders_lookup_snoc (layers : list (option Headers))
    (src : option Headers) (k : string) :
  resolveHeaders (layers ++ [src]) !! k
  = if String.eqb k "__proto__" then None
    else match src with
         | Some m => match m !! k with
                     | Some v => Some v
                     | None => resolveHeaders layers !! k
                     end
         | None => resolveHeaders layers !! k
         end.
Proof.
  destruct (String.eqb_spec k "__proto__") as [-> | Hk];
    [apply resolveHeaders_no_proto |].
  rewrite resolveHeaders_snoc. destruct src as [m |]; [| reflexivity].
  rewrite lookup_union, lookup_delete_ne by congruence.
  by destruct (m !! k), (resolveHeaders layers !! k).
Qed.

Lemma resolveHeaders_accept_default (layers : list (option Headers)) :
  (forall l, Some l ∈ layers -> l !! "Accept" = None) ->
  resolveHeaders layers !! "Accept" = Some "application/json".
Proof.
  induction layers as [| src layers IH] using rev_ind; intros Hno.
  - rewrite resolveHeaders_nil. apply lookup_singleton_eq.
  - rewrite resolveHeaders_lookup_snoc. cbn [String.eqb Ascii.eqb Bool.eqb].
    assert (Hrest : resolveHeaders layers !! "Accept" = Some "application/json").
    { apply IH. intros l Hl. apply Hno. apply elem_of_app. by left. }
    destruct src as [m |]; [| exact Hrest].
    rewrite (Hno m); [exact Hrest |].
    apply elem_of_app. right. by apply list_elem_of_singleton.
Qed.

Lemma resolveHeaders_accept_present (layers : list (option Headers)) :
  is_Some (resolveHeaders layers !! "Accept").
Proof.
  induction layers as [| src layers IH] using rev_ind.
  - rewrite resolveHeaders_nil, lookup_singleton_eq. eauto.
  - rewrite resolveHeaders_lookup_snoc. cbn [String.eqb Ascii.eqb Bool.eqb].
    destruct src as [m |]; [| exact IH].
    destruct (m !! "Accept"); eauto.
Qed.

(** C8: resolveHeaders starts from the one-entry base
    Accept: application/json and applies the layers in argument order;
    an undefined layer changes nothing, a defined layer overwrites the keys
    it names and leaves the others, with one exception: an own key
    __proto__ of a layer is never copied, so the result never has that
    key.  The default entry survives unless a layer names the key Accept,
    and some Accept entry is always present. *)
Theorem resolveHeaders_layers (layers : list (option Headers)) :
  resolveHeaders [] = {[ "Accept" := "application/json" ]}
  /\ resolveHeaders (layers ++ [None]) = resolveHeaders layers
  /\ (forall l : Headers,
        resolveHeaders (layers ++ [Some l])
        = delete "__proto__" l ∪ resolveHeaders layers)
  /\ (forall (l : Headers) k v,
        k <> "__proto__" ->
        l !! k = Some v -> resolveHeaders (layers ++ [Some l]) !! k = Some v)
  /\ (forall (l : Headers) k,
        l !! k = None ->
        resolveHeaders (layers ++ [Some l]) !! k = resolveHeaders layers !! k)
  /\ resolveHeaders layers !! "__proto__" = None
  /\ ((forall l, Some l ∈ layers -> l !! "Accept" = None) ->
      resolveHeaders layers !! "Accept" = Some "application/json")
  /\ is_Some (resolveHeaders layers !! "Accept").
Proof.
  split; [reflexivity |]. split; [apply (resolveHeaders_snoc layers None) |].
  split; [intros l; apply (resolveHeaders_snoc layers (Some l)) |].
  split; [| split; [| split; [| split]]].
  - intros l k v Hk Hl. rewrite resolveHeaders_lookup_snoc, Hl.
    by destruct (String.eqb_spec k "__proto__").
  - intros l k Hl. rewrite resolveHeaders_lookup_snoc, Hl.
    destruct (String.eqb_spec k "__proto__") as [-> | Hk]; [| reflexivity].
    symmetry. apply resolveHeaders_no_proto.
  - apply resolveHeaders_no_proto.
  - apply resolveHeaders_accept_default.
  - apply resolveHeaders_accept_present.
Qed.

(** ** Counting calls in the log *)

Lemma count_app (f : Action -> bool) (l1 l2 : list Action) :
  count f (l1 ++ l2) = (count f l1 + count f l2)%nat.
Proof. unfold count. by rewrite filter_app, length_app. Qed.

Section ExecutorProperties.

Context {Env : Type} {clk : Clock Env}.

(** ** The recursion of execute *)

Lemma execute_with_ext (d : Deps Env) (self1 self2 : ExecuteParams Env -> M Env value)
    (p : ExecuteParams Env) :
  (forall o, self1 (retry_params p o) = self2 (retry_params p o)) ->
  execute_with d self1 p = execute_with d self2 p.
Proof.
  intros H.
  assert (Hfn : (fun o => self1 (retry_params p o)) = (fun o => self2 (retry_params p o))).
  { apply functional_extensionality. exact H. }
  unfold execute_with, handleError. by rewrite Hfn.
Qed.

Lemma execute_with_retry (d : Deps Env) (self1 self2 : ExecuteParams Env -> M Env value)
    (p : ExecuteParams Env) :
  p_isRetry p = Some true ->
  execute_with d self1 p = execute_with d self2 p.
Proof.
  intros H. unfold execute_with, handleError. rewrite H. reflexivity.
Qed.

(** [execute] satisfies the recursive definition of the source. *)
Lemma execute_unfold (d : Deps Env) (p : ExecuteParams Env) :
  execute d p = execute_with d (execute d) p.
Proof.
  unfold execute at 1. apply execute_with_ext. intros o.
  unfold execute. by apply execute_with_retry.
Qed.


(** ** The error-body decoder *)

Lemma decodeErrorBody_resolves (data : value) (fallback : string)
    (errorSchema : option StandardSchema)
    (errorMessage : option (value -> string)) :
  exists decoded : Decoded,
    forall w : World Env,
      decodeErrorBody data fallback errorSchema errorMessage w = (Resolved decoded, w).
Proof.
  unfold decodeErrorBody. destruct errorSchema as [schema |].
  - unfold bind, ret. destruct (validate schema data); eauto.
  - destruct (hasErrorString data); unfold ret; eauto.
Qed.

(** The decoder of [execute], whose collaborators keep to their types:
    its result in closed form. *)
Lemma decodeErrorBody_result (data : value) (fallback : string)
    (errorSchema : option StandardSchema)
    (errorMessage : option (value -> string)) (w : World Env) :
  decodeErrorBody data fallback errorSchema errorMessage w
  = (Resolved
       match errorSchema with
       | None =>
           match data with
           | VObj fields =>
               match obj_get "error" fields with
               | Some (VStr s) => {| dec_message := s; dec_data := None |}
               | _ => {| dec_message := fallback; dec_data := None |}
               end
           | _ => {| dec_message := fallback; dec_data := None |}
           end
       | Some schema =>
           match validate schema data with
           | SRIssues _ => {| dec_message := fallback; dec_data := None |}
           | SRValue v =>
               {| dec_message :=
                    match errorMessage with Some f => f v | None => fallback end;
                  dec_data := Some v |}
           end
       end, w).
Proof.
  unfold decodeErrorBody. destruct errorSchema as [schema |].
  - unfold bind, ret. by destruct (validate schema data).
  - destruct data as [| | b | n | s | items | fields]; try reflexivity.
    unfold hasErrorString, has_property, get_property. simpl.
    destruct (obj_get "error" fields) as [field |]; simpl.
    + by destruct field.
    + reflexivity.
Qed.

(** The guard of [hasErrorString] keeps the operator [in] away from
    everything it throws on: the check always returns. *)
Lemma hasErrorString_guarded (data : value) :
  Fallible.hasErrorString data = Resolved (hasErrorString data).
Proof.
  destruct data as [| | b | n | s | items | fields]; try reflexivity.
  unfold Fallible.hasErrorString, hasErrorString, Fallible.error_in, has_property.
  simpl. by destruct (bool_decide (is_Some (obj_get "error" fields))).
Qed.

(** With collaborators that keep to their types the decoder over fallible
    collaborators is the decoder of [execute]. *)
Lemma decodeErrorBody_of_total (data : value) (fallback : string)
    (errorSchema : option StandardSchema)
    (errorMessage : option (value -> string)) (w : World Env) :
  Fallible.decodeErrorBody data fallback (Fallible.of_schema <$> errorSchema)
    (Fallible.of_extractor <$> errorMessage) w
  = decodeErrorBody data fallback errorSchema errorMessage w.
Proof.
  unfold Fallible.decodeErrorBody, decodeErrorBody, Fallible.call, bind, ret.
  destruct errorSchema as [schema |]; cbn [fmap option_fmap option_map].
  - cbn [Fallible.of_schema Fallible.run_validate].
    destruct (validate schema data) as [v | issues]; [| reflexivity].
    by destruct errorMessage.
  - rewrite hasErrorString_guarded. by destruct (hasErrorString data).
Qed.

(** C5: decodeErrorBody leaves the world alone and fails only by passing
    on a failure of its collaborators.  With no error schema it returns
    for every body, null and primitives included: the message is the
    string-typed error field of an object body, else the fallback, and no
    data is attached.  With an error schema it rejects with what validate
    throws or rejects with; it returns the fallback and no data when
    validation reports issues; otherwise it rejects with what the
    extractor throws, or returns the extractor's message (the fallback
    when there is no extractor) together with the decoded value as data.
    With a validate and an extractor that return, it is the decoder that
    execute runs, and it returns. *)
Theorem decodeErrorBody_fails_only_with_collaborators (data : value)
    (fallback : string) (errorSchema : option Fallible.Schema)
    (errorMessage : option Fallible.Extractor) (w : World Env) :
  let run := Fallible.decodeErrorBody data fallback errorSchema errorMessage w in
  snd run = w
  /\ (errorSchema = None ->
      fst run
      = Resolved {| dec_message :=
                      match data with
                      | VObj fields =>
                          match obj_get "error" fields with
                          | Some (VStr s) => s
                          | _ => fallback
                          end
                      | _ => fallback
                      end;
                    dec_data := None |})
  /\ (forall schema,
        errorSchema = Some schema ->
        fst run
        = match Fallible.run_validate schema data with
          | Rejected t => Rejected t
          | Resolved (SRIssues _) =>
              Resolved {| dec_message := fallback; dec_data := None |}
          | Resolved (SRValue v) =>
              match errorMessage with
              | None => Resolved {| dec_message := fallback; dec_data := Some v |}
              | Some f =>
                  match f v with
                  | Resolved message =>
                      Resolved {| dec_message := message; dec_data := Some v |}
                  | Rejected t => Rejected t
                  end
              end
          end)
  /\ (forall t,
        fst run = Rejected t ->
        exists schema,
          errorSchema = Some schema
          /\ (Fallible.run_validate schema data = Rejected t
              \/ exists v f,
                   Fallible.run_validate schema data = Resolved (SRValue v)
                   /\ errorMessage = Some f /\ f v = Rejected t))
  /\ (forall (schema : option StandardSchema) (extractor : option (value -> string)),
        errorSchema = Fallible.of_schema <$> schema ->
        errorMessage = Fallible.of_extractor <$> extractor ->
        run = decodeErrorBody data fallback schema extractor w
        /\ exists decoded, fst run = Resolved decoded).
Proof.
  intros run.
  assert (Hnone : errorSchema = None ->
            run = (Resolved {| dec_message :=
                                 match data with
                                 | VObj fields =>
                                     match obj_get "error" fields with
                                     | Some (VStr s) => s
                                     | _ => fallback
                                     end
                                 | _ => fallback
                                 end;
                               dec_data := None |}, w)).
  { intros ->. subst run.
    pose proof (decodeErrorBody_of_total data fallback None None w) as Htotal.
    cbn [fmap option_fmap option_map] in Htotal.
    unfold Fallible.decodeErrorBody in *. rewrite Htotal.
    rewrite decodeErrorBody_result. f_equal. f_equal.
    destruct data as [| | b | n | s | items | fields]; try reflexivity.
    by destruct (obj_get "error" fields) as [[] |]. }
  assert (Hsome : forall schema, errorSchema = Some schema ->
            run = (match Fallible.run_validate schema data with
                   | Rejected t => Rejected t
                   | Resolved (SRIssues _) =>
                       Resolved {| dec_message := fallback; dec_data := None |}
                   | Resolved (SRValue v) =>
                       match errorMessage with
                       | None =>
                           Resolved {| dec_message := fallback; dec_data := Some v |}
                       | Some f =>
                           match f v with
                           | Resolved message =>
                               Resolved {| dec_message := message; dec_data := Some v |}
                           | Rejected t => Rejected t
                           end
                       end
                   end, w)).
  { intros schema ->. subst run.
    unfold Fallible.decodeErrorBody, Fallible.call, bind, ret.
    destruct (Fallible.run_validate schema data) as [[v | issues] | t]; try reflexivity.
    destruct errorMessage as [f |]; [| reflexivity].
    by destruct (f v). }
  split; [| split; [| split; [| split]]].
  - destruct errorSchema as [schema |].
    + by rewrite (Hsome schema eq_refl).
    + by rewrite (Hnone eq_refl).
  - intros Hno. by rewrite (Hnone Hno).
  - intros schema Hschema. by rewrite (Hsome schema Hschema).
  - intros t Ht. destruct errorSchema as [schema |].
    + exists schema. split; [reflexivity |].
      rewrite (Hsome schema eq_refl) in Ht. cbn [fst] in Ht.
      destruct (Fallible.run_validate schema data) as [[v | issues] | t'] eqn:Hvalid.
      * right. destruct errorMessage as [f |]; [| discriminate Ht].
        exists v, f. split; [reflexivity |]. split; [reflexivity |].
        destruct (f v) as [message | t0]; [discriminate Ht |].
        by injection Ht as ->.
      * discriminate Ht.
      * left. by injection Ht as ->.
    + rewrite (Hnone eq_refl) in Ht. discriminate Ht.
  - intros schema extractor -> ->. subst run.
    rewrite decodeErrorBody_of_total. split; [reflexivity |].
    rewrite decodeErrorBody_result. eauto.
Qed.


(** ** The paths through one attempt *)

Lemma span_resolves (p : ExecuteParams Env) onSpan start status ok error (w : World Env) :
  span p onSpan start status ok error w
  = (Resolved tt, snd (span p onSpan start status ok error w)).
Proof. unfold span. by destruct onSpan. Qed.


Lemma spanned_no_sink (d : Deps Env) (p : ExecuteParams Env) (w w0 : World Env)
    status ok error :
  p_onSpan p ?? d_onSpan d = None ->
  spanned d p w status ok error w0 = w0.
Proof. intros Hsink. unfold spanned, span. by rewrite Hsink. Qed.

Ltac run_attempt Hfetch :=
  unfold execute_with, json_or_undefined, settle, call_fetch, now, log_action,
    bind, ret, spanned, fetched, parsed;
  cbv beta iota zeta; cbn [env log];
  rewrite Hfetch; cbv beta iota zeta; cbn [env log].

Ltac finish_attempt :=
  rewrite span_resolves; cbn [env log]; rewrite <- ?app_assoc; reflexivity.

Lemma execute_with_rejected (d : Deps Env) self (p : ExecuteParams Env)
    (w : World Env) caught e1 :
  d_fetch d (p_url p) (request_init p) (env w) = (Rejected caught, e1) ->
  let error := NetworkError ("Network error: " +:+ failure_detail caught) in
  execute_with d self p w
  = handleError self p (default false (p_isRetry p)) (p_catch p ?? d_catch d) error
      (spanned d p w None false (Some error) (fetched p w e1)).
Proof.
  intros Hfetch error. run_attempt Hfetch.
  finish_attempt.
Qed.

Lemma execute_with_http (d : Deps Env) self (p : ExecuteParams Env)
    (w : World Env) response e1 :
  d_fetch d (p_url p) (request_init p) (env w) = (Resolved response, e1) ->
  resp_ok response = false ->
  exists decoded,
    (forall w' : World Env, decodeErrorBody (json_value response) (p_fallback p)
                  (p_errorSchema p ?? d_errorSchema d)
                  (p_errorMessage p ?? d_errorMessage d) w' = (Resolved decoded, w'))
    /\ let error :=
         HttpError (resp_status response) (resp_statusText response)
                   (dec_message decoded) (default VUndefined (dec_data decoded)) in
       execute_with d self p w
       = handleError self p (default false (p_isRetry p)) (p_catch p ?? d_catch d) error
           (spanned d p w (Some (resp_status response)) false (Some error)
                    (parsed p w e1 response)).
Proof.
  intros Hfetch Hok.
  destruct (decodeErrorBody_resolves (json_value response) (p_fallback p)
              (p_errorSchema p ?? d_errorSchema d)
              (p_errorMessage p ?? d_errorMessage d)) as [decoded Hdec].
  exists decoded. split; [exact Hdec |].
  intros error. run_attempt Hfetch. rewrite Hok. cbn [negb]. cbv beta iota.
  rewrite Hdec. finish_attempt.
Qed.

Lemma execute_with_void (d : Deps Env) self (p : ExecuteParams Env)
    (w : World Env) response e1 :
  d_fetch d (p_url p) (request_init p) (env w) = (Resolved response, e1) ->
  resp_ok response = true ->
  p_schema p = None ->
  execute_with d self p w
  = (Resolved VUndefined,
     spanned d p w (Some (resp_status response)) true None (fetched p w e1)).
Proof.
  intros Hfetch Hok Hschema. run_attempt Hfetch. rewrite Hok, Hschema. cbn [negb].
  finish_attempt.
Qed.

Lemma execute_with_valid (d : Deps Env) self (p : ExecuteParams Env)
    (w : World Env) response e1 schema v :
  d_fetch d (p_url p) (request_init p) (env w) = (Resolved response, e1) ->
  resp_ok response = true ->
  p_schema p = Some schema ->
  validate schema (json_value response) = SRValue v ->
  execute_with d self p w
  = (Resolved v,
     spanned d p w (Some (resp_status response)) true None (parsed p w e1 response)).
Proof.
  intros Hfetch Hok Hschema Hvalid. run_attempt Hfetch.
  rewrite Hok, Hschema. cbn [negb]. cbv beta iota. rewrite Hvalid.
  finish_attempt.
Qed.

Lemma execute_with_invalid (d : Deps Env) self (p : ExecuteParams Env)
    (w : World Env) response e1 schema issues :
  d_fetch d (p_url p) (request_init p) (env w) = (Resolved response, e1) ->
  resp_ok response = true ->
  p_schema p = Some schema ->
  validate schema (json_value response) = SRIssues issues ->
  let error := ParseError "Unexpected response format" (map issue_message issues) in
  execute_with d self p w
  = handleError self p (default false (p_isRetry p)) (p_catch p ?? d_catch d) error
      (spanned d p w (Some (resp_status response)) false (Some error)
               (parsed p w e1 response)).
Proof.
  intros Hfetch Hok Hschema Hvalid error. run_attempt Hfetch.
  rewrite Hok, Hschema. cbn [negb]. cbv beta iota. rewrite Hvalid.
  finish_attempt.
Qed.


(** Every attempt ends in one of the five paths: it returns a value from
    the world [w1] it has reached, or enters [handleError] there. *)
Lemma attempt_paths (d : Deps Env) self (p : ExecuteParams Env) (w : World Env) :
  exists (tail : list Action) (status : option Z) (ok : bool)
         (error : option FetchError),
    let e1 := snd (d_fetch d (p_url p) (request_init p) (env w)) in
    let w0 := mkWorld e1 (log w ++ ActFetch (p_url p) (request_init p) :: tail) in
    let w1 := spanned d p w status ok error w0 in
    (tail = [] \/ exists response, tail = [ActJson response])
    /\ status = match fst (d_fetch d (p_url p) (request_init p) (env w)) with
                | Resolved response => Some (resp_status response)
                | Rejected _ => None
                end
    /\ ((ok = true /\ error = None /\ exists v, execute_with d self p w = (Resolved v, w1))
        \/ (exists E, ok = false /\ error = Some E
                      /\ execute_with d self p w
                         = handleError self p (default false (p_isRetry p))
                             (p_catch p ?? d_catch d) E w1)).
Proof.
  destruct (d_fetch d (p_url p) (request_init p) (env w)) as [[response | caught] e1]
    eqn:Hfetch; cbn [fst snd].
  - destruct (resp_ok response) eqn:Hok.
    + destruct (p_schema p) as [schema |] eqn:Hschema.
      * destruct (validate schema (json_value response)) as [v | issues] eqn:Hvalid.
        -- exists [ActJson response], (Some (resp_status response)), true, None.
           split; [eauto | split; [reflexivity |]]. left.
           repeat split. exists v. by eapply execute_with_valid.
        -- exists [ActJson response], (Some (resp_status response)), false,
             (Some (ParseError "Unexpected response format" (map issue_message issues))).
           split; [eauto | split; [reflexivity |]]. right.
           eexists. repeat split. by eapply execute_with_invalid.
      * exists [], (Some (resp_status response)), true, None.
        split; [eauto | split; [reflexivity |]]. left.
        repeat split. exists VUndefined. by apply execute_with_void.
    + destruct (execute_with_http d self p w response e1 Hfetch Hok)
        as (decoded & _ & Hrun).
      exists [ActJson response], (Some (resp_status response)), false,
        (Some (HttpError (resp_status response) (resp_statusText response)
                 (dec_message decoded) (default VUndefined (dec_data decoded)))).
      split; [eauto | split; [reflexivity |]]. right.
      eexists. repeat split. exact Hrun.
  - exists [], None, false,
      (Some (NetworkError ("Network error: " +:+ failure_detail caught))).
    split; [eauto | split; [reflexivity |]]. right.
    eexists. repeat split. by apply execute_with_rejected.
Qed.


(** ** Observability *)


(** ** Transport failure *)


(** ** Successful responses *)


(** C10: for a response whose ok flag is true and a descriptor with no
    response schema, execute resolves with undefined and never calls
    json() on the response; a transport that answers with any other
    response of the same status and ok flag, whatever its body and however
    reading it would settle, gives the same result and the same world. *)
Theorem schemaless_success_ignores_body (d : Deps Env) (p : ExecuteParams Env)
    (w : World Env) (response : Response) (e1 : Env) :
  d_fetch d (p_url p) (request_init p) (env w) = (Resolved response, e1) ->
  resp_ok response = true ->
  p_schema p = None ->
  (exists events,
     execute d p w
     = (Resolved VUndefined,
        mkWorld (env (snd (execute d p w)))
                (log w ++ ActFetch (p_url p) (request_init p) :: events))
     /\ count is_json events = 0%nat
     /\ count is_span events = (length events)%nat
     /\ (length events <= 1)%nat)
  /\ (forall (d' : Deps Env) (response' : Response),
        d_onSpan d' = d_onSpan d ->
        d_fetch d' (p_url p) (request_init p) (env w) = (Resolved response', e1) ->
        resp_ok response' = true ->
        resp_status response' = resp_status response ->
        execute d' p w = execute d p w).
Proof.
  intros Hfetch Hok Hschema. split.
  - rewrite execute_unfold, (execute_with_void _ _ _ _ _ _ Hfetch Hok Hschema).
    cbn [snd]. unfold spanned, span, fetched.
    destruct (p_onSpan p ?? d_onSpan d) as [sink |]; cbn [snd env log].
    + eexists [_]. rewrite <- app_assoc. repeat split. cbn. lia.
    + exists []. repeat split. cbn. lia.
  - intros d' response' Hspan Hfetch' Hok' Hstatus.
    rewrite !execute_unfold.
    rewrite (execute_with_void _ _ _ _ _ _ Hfetch Hok Hschema).
    rewrite (execute_with_void _ _ _ _ _ _ Hfetch' Hok' Hschema).
    unfold spanned. by rewrite Hspan, Hstatus.
Qed.


(** ** The transport call *)

Lemma spanned_log (d : Deps Env) (p : ExecuteParams Env) (w w0 : World Env)
    status ok error :
  exists events : list Action,
    log (spanned d p w status ok error w0) = log w0 ++ events
    /\ count is_fetch events = 0%nat
    /\ count is_catch events = 0%nat
    /\ count is_json events = 0%nat.
Proof.
  unfold spanned, span.
  destruct (p_onSpan p ?? d_onSpan d) as [sink |]; cbn [snd log].
  - eexists [_]. by repeat split.
  - exists []. rewrite app_nil_r. by repeat split.
Qed.

Lemma stringify_string_fields (fields : list (string * string)) :
  Platform.JSON_stringify (VObj (map (fun kv => (fst kv, VStr (snd kv))) fields))
  = Some ("{" +:+
          Platform.join ","
            (map (fun kv => Platform.QuoteJSONString (fst kv) +:+ ":"
                            +:+ Platform.QuoteJSONString (snd kv)) fields)
          +:+ "}").
Proof.
  unfold Platform.JSON_stringify. cbn [Platform.SerializeJSONProperty].
  do 4 f_equal. induction fields as [| [k v] fields IH]; [reflexivity |].
  cbn [map omap list_omap fst snd Platform.SerializeJSONProperty].
  by rewrite IH.
Qed.

(** On a body that is data, the call of the [try] block is the call
    [execute_with] makes, and the two executors agree. *)
Lemma try_fetch_data (d : Deps Env) (p : ExecuteParams Env) :
  try_fetch d p (Data (p_body p)) = call_fetch d (p_url p) (request_init p).
Proof.
  unfold try_fetch, request_init. cbn [body_defined stringify_body].
  by destruct (is_defined (p_body p)).
Qed.

Lemma execute_with_body_data (d : Deps Env)
    (self : ExecuteParams Env -> BodyValue -> M Env value) (p : ExecuteParams Env) :
  execute_with_body d self p (Data (p_body p))
  = execute_with d (fun p' => self p' (Data (p_body p))) p.
Proof. unfold execute_with_body, execute_with. by rewrite try_fetch_data. Qed.

Lemma execute_body_data (d : Deps Env) (p : ExecuteParams Env) :
  execute_body d p (Data (p_body p)) = execute d p.
Proof.
  unfold execute_body, execute. rewrite execute_with_body_data.
  apply execute_with_ext. intros o.
  change (Data (p_body p)) with (Data (p_body (retry_params p o))).
  by rewrite execute_with_body_data.
Qed.

(** A body for which [JSON.stringify] gives no text is sent as no body. *)
Lemma execute_with_body_unsent (d : Deps Env)
    (self : ExecuteParams Env -> BodyValue -> M Env value) (p : ExecuteParams Env)
    (b : BodyValue) :
  body_defined b = true ->
  stringify_body b = inr None ->
  p_body p = VUndefined ->
  execute_with_body d self p b = execute_with d (fun p' => self p' b) p.
Proof.
  intros Hdef Htext Hbody. unfold execute_with_body, execute_with.
  assert (Hcall : try_fetch d p b = call_fetch d (p_url p) (request_init p)).
  { unfold try_fetch, request_init. by rewrite Hdef, Htext, Hbody. }
  by rewrite Hcall.
Qed.

(** A body on which [JSON.stringify] throws: the attempt fails with the
    Network error of the [TypeError], and the transport is not called. *)
Lemma execute_with_body_throws (d : Deps Env)
    (self : ExecuteParams Env -> BodyValue -> M Env value) (p : ExecuteParams Env)
    (b : BodyValue) (e : JsError) (w : World Env) :
  body_defined b = true ->
  stringify_body b = inl e ->
  let error := NetworkError ("Network error: " +:+ err_message e) in
  execute_with_body d self p b w
  = handleError (fun p' => self p' b) p (default false (p_isRetry p))
      (p_catch p ?? d_catch d) error
      (spanned d p w None false (Some error) w).
Proof.
  intros Hdef Hthrow error.
  unfold execute_with_body, try_fetch, settle, now, throw, bind, spanned.
  rewrite Hdef, Hthrow. cbv beta iota zeta. cbn [env log failure_detail].
  rewrite span_resolves. by destruct w.
Qed.

(** C7: the transport is called with the url of the descriptor and an
    init that carries its method, headers, credentials and cache mode,
    whatever the method.  For a body that is data, the init has a body
    exactly when the body of the descriptor is defined, and the body is
    then its JSON text, with the fields of an object in property order
    (the order of insertion, for distinct keys that are no array indices);
    the attempt makes this one transport call, first, and no other.  For
    a body of any kind the body sent is the text JSON.stringify gives: a
    function or a symbol is defined and is sent as no body, the attempt
    being the attempt of the descriptor with no body; and when
    JSON.stringify throws, on a bigint or a cyclic object, the attempt
    fails with the Network error of what was thrown and the transport is
    not called. *)
Theorem transport_receives_descriptor (d : Deps Env) (p : ExecuteParams Env)
    (w : World Env) :
  let init := request_init p in
  init_method init = p_method p
  /\ init_headers init = p_headers p
  /\ init_credentials init = p_credentials p
  /\ init_cache init = p_cache p
  /\ (p_body p = VUndefined -> init_body init = None)
  /\ (is_defined (p_body p) = true ->
      exists text, Platform.JSON_stringify (p_body p) = Some text
                   /\ init_body init = Some text)
  /\ (is_Some (init_body init) <-> is_defined (p_body p) = true)
  /\ (p_body p = VObj [("email", VStr "a@b.com")] ->
      init_body init
      = Some ("{" +:+ Platform.dquote +:+ "email" +:+ Platform.dquote +:+ ":"
              +:+ Platform.dquote +:+ "a@b.com" +:+ Platform.dquote +:+ "}"))
  /\ (forall fields : list (string * string),
        p_body p = VObj (map (fun kv => (fst kv, VStr (snd kv))) fields) ->
        Platform.insertion_ordered (map (fun kv => (fst kv, VStr (snd kv))) fields)
        = true ->
        init_body init
        = Some ("{" +:+
                Platform.join ","
                  (map (fun kv => Platform.QuoteJSONString (fst kv) +:+ ":"
                                  +:+ Platform.QuoteJSONString (snd kv)) fields)
                +:+ "}"))
  /\ (exists (tail : list Action) (w1 : World Env),
        log w1 = log w ++ ActFetch (p_url p) init :: tail
        /\ count is_fetch tail = 0%nat
        /\ ((exists v, execute d p w = (Resolved v, w1))
            \/ (exists E, execute d p w
                          = handleError (execute d) p (default false (p_isRetry p))
                              (p_catch p ?? d_catch d) E w1)))
  /\ try_fetch d p (Data (p_body p)) = call_fetch d (p_url p) init
  /\ execute_body d p (Data (p_body p)) = execute d p
  /\ (forall self (b : BodyValue),
        b = FunctionValue \/ b = SymbolValue ->
        p_body p = VUndefined ->
        body_defined b = true
        /\ init_body init = None
        /\ try_fetch d p b = call_fetch d (p_url p) init
        /\ execute_with_body d self p b = execute_with d (fun p' => self p' b) p)
  /\ (forall self (b : BodyValue) message,
        b = BigIntValue message \/ b = CyclicObject message ->
        let error := NetworkError ("Network error: " +:+ message) in
        body_defined b = true
        /\ try_fetch d p b w = (Rejected (ThrowError (not_serializable message)), w)
        /\ execute_with_body d self p b w
           = handleError (fun p' => self p' b) p (default false (p_isRetry p))
               (p_catch p ?? d_catch d) error
               (spanned d p w None false (Some error) w)).
Proof.
  intros init.
  assert (Hbody : init_body init
                  = if is_defined (p_body p)
                    then Platform.JSON_stringify (p_body p) else None)
    by reflexivity.
  split; [reflexivity |]. split; [reflexivity |]. split; [reflexivity |].
  split; [reflexivity |]. rewrite Hbody. split; [by intros -> |].
  split; [| split; [| split; [| split; [| split; [| split; [| split; [| split]]]]]]].
  - intros Hdef. rewrite Hdef.
    destruct (JSON_stringify_defined _ Hdef) as [text Htext]. eauto.
  - split.
    + destruct (is_defined (p_body p)); [done | by intros [? ?]].
    + intros Hdef. rewrite Hdef. by apply JSON_stringify_defined.
  - by intros ->.
  - intros fields -> _. cbn [is_defined]. apply stringify_string_fields.
  - rewrite execute_unfold.
    destruct (attempt_paths d (execute d) p w)
      as (tail & status & ok & error & Htail & _ & Hrun).
    cbn zeta in Hrun.
    match type of Hrun with
    | context [spanned d p w status ok error ?w0] =>
        destruct (spanned_log d p w w0 status ok error)
          as (events & Hlog & Hfetch & _ & _);
        exists (tail ++ events), (spanned d p w status ok error w0)
    end.
    split; [| split].
    + rewrite Hlog. cbn [log]. by rewrite <- app_assoc.
    + rewrite count_app, Hfetch.
      by destruct Htail as [-> | [response ->]].
    + destruct Hrun as [(_ & _ & v & Hv) | (E & _ & _ & HE)]; eauto.
  - apply try_fetch_data.
  - apply execute_body_data.
  - intros self b Hkind Hundefined.
    assert (Hdef : body_defined b = true) by (by destruct Hkind as [-> | ->]).
    assert (Htext : stringify_body b = inr None) by (by destruct Hkind as [-> | ->]).
    split; [exact Hdef |]. split; [by rewrite Hundefined |].
    split; [| by apply execute_with_body_unsent].
    unfold try_fetch. subst init. unfold request_init.
    by rewrite Hdef, Htext, Hundefined.
  - intros self b message Hkind error.
    assert (Hdef : body_defined b = true) by (by destruct Hkind as [-> | ->]).
    assert (Hthrow : stringify_body b = inl (not_serializable message))
      by (by destruct Hkind as [-> | ->]).
    split; [exact Hdef |]. split.
    + unfold try_fetch. by rewrite Hdef, Hthrow.
    + exact (execute_with_body_throws d self p b _ w Hdef Hthrow).
Qed.


(** ** Recovery *)

Lemma handleError_escalates (self : ExecuteParams Env -> M Env value)
    (p : ExecuteParams Env) isRetry catchHandler error (w : World Env) :
  isRetry = true \/ catchHandler = None ->
  handleError self p isRetry catchHandler error w
  = (Rejected (ThrowError (toError error)), w).
Proof.
  intros [-> | ->]; unfold handleError, throw; [reflexivity |].
  by destruct isRetry.
Qed.

Lemma handleError_hook (self : ExecuteParams Env -> M Env value)
    (p : ExecuteParams Env) handler error (w : World Env) :
  handleError self p false (Some handler) error w
  = handler error (fun retryOptions => self (retry_params p retryOptions))
      (mkWorld (env w) (log w ++ [ActCatch error])).
Proof. reflexivity. Qed.

(** An attempt whose retry flag is set: one transport call, no hook, and
    a failure thrown as converted. *)
Lemma retried_attempt (d : Deps Env) (p : ExecuteParams Env) (w : World Env) :
  p_isRetry p = Some true ->
  exists delta : list Action,
    log (snd (execute d p w)) = log w ++ delta
    /\ count is_fetch delta = 1%nat
    /\ count is_catch delta = 0%nat
    /\ ((exists v, fst (execute d p w) = Resolved v)
        \/ (exists E, fst (execute d p w) = Rejected (ThrowError (toError E)))).
Proof.
  intros Hretry. rewrite execute_unfold.
  destruct (attempt_paths d (execute d) p w)
    as (tail & status & ok & error & Htail & _ & Hrun).
  cbn zeta in Hrun.
  match type of Hrun with
  | context [spanned d p w status ok error ?w0] =>
      destruct (spanned_log d p w w0 status ok error)
        as (events & Hlog & Hfetch & Hcatch & _)
  end.
  cbn [log] in Hlog.
  exists (ActFetch (p_url p) (request_init p) :: tail ++ events).
  assert (Hcounts :
    count is_fetch (ActFetch (p_url p) (request_init p) :: tail ++ events) = 1%nat
    /\ count is_catch (ActFetch (p_url p) (request_init p) :: tail ++ events) = 0%nat).
  { change (ActFetch (p_url p) (request_init p) :: tail ++ events)
      with ([ActFetch (p_url p) (request_init p)] ++ tail ++ events).
    rewrite !count_app, Hfetch, Hcatch.
    by destruct Htail as [-> | [response ->]]. }
  destruct Hcounts as [Hone Hzero].
  destruct Hrun as [(_ & _ & v & ->) | (E & _ & _ & ->)].
  - cbn [fst snd]. rewrite Hlog, <- app_assoc. eauto 10.
  - rewrite handleError_escalates by (left; by rewrite Hretry).
    cbn [fst snd]. rewrite Hlog, <- app_assoc. eauto 10.
Qed.

Lemma resolveHeaders_lookup_two (a b : option Headers) (k : string) :
  resolveHeaders [a; b] !! k
  = let at_key (o : option Headers) :=
      match o with Some m => m !! k | None => None end in
    if String.eqb k "__proto__" then None
    else match at_key b, at_key a with
         | Some v, _ => Some v
         | None, Some v => Some v
         | None, None => ({[ "Accept" := "application/json" ]} : Headers) !! k
         end.
Proof.
  change [a; b] with (([] ++ [a]) ++ [b]).
  rewrite !resolveHeaders_lookup_snoc, resolveHeaders_nil. cbn zeta.
  destruct (String.eqb k "__proto__"); [reflexivity |].
  destruct b as [b |], a as [a |];
    repeat match goal with |- context [?m !! k] =>
             lazymatch m with
             | {[ _ := _ ]} => fail
             | _ => destruct (m !! k)
             end
           end; reflexivity.
Qed.

(** C9: when the hook is invoked, the retry function it receives runs
    execute on a descriptor that has the merge of the original headers
    and the replacement headers as headers, the retry flag set, and every
    other field of the original: url, method, op, name, fallback, body,
    schemas, extractor, transport options and hooks are unchanged.  In
    the merged headers a replacement key wins and every other key keeps
    its merged value, except for the key __proto__, which the merge never
    carries over, from either map. *)
Theorem retry_descriptor_frame (d : Deps Env) (p : ExecuteParams Env)
    (error : FetchError) (w : World Env) (handler : CatchHandler Env) :
  default false (p_isRetry p) = false ->
  p_catch p ?? d_catch d = Some handler ->
  handleError (execute d) p (default false (p_isRetry p)) (p_catch p ?? d_catch d)
              error w
  = handler error (fun retryOptions => execute d (retry_params p retryOptions))
      (mkWorld (env w) (log w ++ [ActCatch error]))
  /\ forall retryOptions : option RequestOptions,
       let p' := retry_params p retryOptions in
       let replacement :=
         match retryOptions with Some o => ro_headers o | None => None end in
       p_headers p' = resolveHeaders [Some (p_headers p); replacement]
       /\ p_headers p' !! "__proto__" = None
       /\ (forall (l : Headers) k v,
             k <> "__proto__" ->
             replacement = Some l -> l !! k = Some v -> p_headers p' !! k = Some v)
       /\ (forall k v,
             k <> "__proto__" ->
             p_headers p !! k = Some v ->
             (forall l : Headers, replacement = Some l -> l !! k = None) ->
             p_headers p' !! k = Some v)
       /\ (forall k,
             p_headers p !! k = None ->
             (forall l : Headers, replacement = Some l -> l !! k = None) ->
             p_headers p' !! k
             = ({[ "Accept" := "application/json" ]} : Headers) !! k)
       /\ p_isRetry p' = Some true
       /\ p_url p' = p_url p
       /\ p_method p' = p_method p
       /\ p_op p' = p_op p
       /\ p_name p' = p_name p
       /\ p_fallback p' = p_fallback p
       /\ p_body p' = p_body p
       /\ p_schema p' = p_schema p
       /\ p_credentials p' = p_credentials p
       /\ p_cache p' = p_cache p
       /\ p_errorSchema p' = p_errorSchema p
       /\ p_errorMessage p' = p_errorMessage p
       /\ p_onSpan p' = p_onSpan p
       /\ p_catch p' = p_catch p.
Proof.
  intros Hretry Hcatch. split.
  - rewrite Hretry, Hcatch. apply handleError_hook.
  - intros retryOptions p' replacement.
    assert (Hlookup : forall k,
              p_headers p' !! k
              = if String.eqb k "__proto__" then None
                else match match replacement with Some l => l !! k | None => None end,
                           p_headers p !! k with
                     | Some v, _ => Some v
                     | None, Some v => Some v
                     | None, None =>
                         ({[ "Accept" := "application/json" ]} : Headers) !! k
                     end).
    { intros k. subst p'. cbn [retry_params p_headers]. fold replacement.
      apply resolveHeaders_lookup_two. }
    split; [reflexivity |].
    split; [apply resolveHeaders_no_proto |].
    split; [| split; [| split; [| by repeat split]]].
    + intros l k v Hk -> Hl. rewrite Hlookup, Hl.
      by destruct (String.eqb_spec k "__proto__").
    + intros k v Hk Hp Hnone. rewrite Hlookup, Hp.
      destruct (String.eqb_spec k "__proto__"); [done |].
      destruct replacement as [l |]; [by rewrite (Hnone l eq_refl) | reflexivity].
    + intros k Hp Hnone. rewrite Hlookup, Hp.
      destruct (String.eqb_spec k "__proto__") as [-> | Hk].
      * symmetry. by apply lookup_singleton_ne.
      * destruct replacement as [l |]; [by rewrite (Hnone l eq_refl) | reflexivity].
Qed.

(** C3, as amended: an attempt that has produced a Classified Error ends
    in exactly one of four ways.  With no hook, or on a retried attempt,
    execute rejects with the converted error: its message is the message
    of the Classified Error, its name is FetchError. followed by the
    variant tag, and it carries the Classified Error as fetchError.
    Otherwise the hook is invoked once and its settlement is the
    settlement of execute: resolved with undefined (swallowed), resolved
    with a value (replaced), or rejected with whatever the hook rejects
    with, such as the failure of the retry it returned. *)
Theorem recovery_outcomes (d : Deps Env) (p : ExecuteParams Env)
    (error : FetchError) (w : World Env) :
  let isRetry := default false (p_isRetry p) in
  let catchHandler := p_catch p ?? d_catch d in
  let settled := handleError (execute d) p isRetry catchHandler error w in
  ((isRetry = true \/ catchHandler = None)
   \/ (exists handler, isRetry = false /\ catchHandler = Some handler))
  /\ (isRetry = true \/ catchHandler = None ->
      settled = (Rejected (ThrowError (toError error)), w)
      /\ err_message (toError error) = fe_message error
      /\ err_name (toError error) = "FetchError." +:+ fe_type error
      /\ err_fetchError (toError error) = Some error
      /\ (fe_type error = "network" \/ fe_type error = "http"
          \/ fe_type error = "parse"))
  /\ (forall handler,
        isRetry = false -> catchHandler = Some handler ->
        let hooked :=
          handler error (fun retryOptions => execute d (retry_params p retryOptions))
                  (mkWorld (env w) (log w ++ [ActCatch error])) in
        settled = hooked
        /\ (forall w2, hooked = (Resolved VUndefined, w2) ->
                       settled = (Resolved VUndefined, w2))
        /\ (forall v w2, hooked = (Resolved v, w2) -> settled = (Resolved v, w2))
        /\ (forall t w2, hooked = (Rejected t, w2) -> settled = (Rejected t, w2))).
Proof.
  intros isRetry catchHandler settled. split; [| split].
  - destruct isRetry; [by left; left |].
    destruct catchHandler as [handler |]; [right; eauto | by left; right].
  - intros Hesc. split; [by apply handleError_escalates |].
    repeat split. destruct error; cbn; eauto.
  - intros handler Hretry Hcatch hooked.
    assert (Hsame : settled = hooked).
    { subst settled hooked. rewrite Hretry, Hcatch. apply handleError_hook. }
    split; [exact Hsame |]. rewrite Hsame. by repeat split.
Qed.

(** What the retry flag bounds is the depth of the recursion.  An
    attempt whose retry flag is set makes one transport call, never
    invokes the hook, and throws its failure converted; the retry function
    handed to the hook runs execute with the retry flag set, once per
    call of that function.  So the hook that answers every error with
    retry() leads to at most two transport calls and one hook invocation,
    and when the call is rejected it has made exactly two transport calls
    and rejects with the converted failure of the second. *)
Theorem retry_depth_is_one (d : Deps Env) (p : ExecuteParams Env) (w : World Env) :
  (p_isRetry p = Some true ->
     exists delta : list Action,
       log (snd (execute d p w)) = log w ++ delta
       /\ count is_fetch delta = 1%nat
       /\ count is_catch delta = 0%nat
       /\ ((exists v, fst (execute d p w) = Resolved v)
           \/ (exists E, fst (execute d p w) = Rejected (ThrowError (toError E)))))
  /\ (forall retryOptions, p_isRetry (retry_params p retryOptions) = Some true)
  /\ (forall handler error w0,
        handleError (execute d) p false (Some handler) error w0
        = handler error (fun retryOptions => execute d (retry_params p retryOptions))
            (mkWorld (env w0) (log w0 ++ [ActCatch error])))
  /\ (default false (p_isRetry p) = false ->
      p_catch p ?? d_catch d = Some (fun _ retry => retry None) ->
      exists delta : list Action,
        log (snd (execute d p w)) = log w ++ delta
        /\ (1 <= count is_fetch delta <= 2)%nat
        /\ (count is_catch delta <= 1)%nat
        /\ ((exists v, fst (execute d p w) = Resolved v)
            \/ (count is_fetch delta = 2%nat
                /\ count is_catch delta = 1%nat
                /\ exists E, fst (execute d p w)
                             = Rejected (ThrowError (toError E))))).
Proof.
  split; [apply retried_attempt | split; [reflexivity | split]].
  - intros handler error w0. apply handleError_hook.
  - intros Hretry Hcatch. rewrite execute_unfold.
    destruct (attempt_paths d (execute d) p w)
      as (tail & status & ok & error & Htail & _ & Hrun).
    cbn zeta in Hrun.
    match type of Hrun with
    | context [spanned d p w status ok error ?w0] =>
        destruct (spanned_log d p w w0 status ok error)
          as (events & Hlog & Hfetch & Hnocatch & _);
        set (w1 := spanned d p w status ok error w0) in *
    end.
    cbn [log] in Hlog.
    set (first := ActFetch (p_url p) (request_init p) :: tail ++ events).
    assert (Hfirst : log w1 = log w ++ first).
    { rewrite Hlog. subst first. by rewrite <- app_assoc. }
    assert (Hcounts : count is_fetch first = 1%nat /\ count is_catch first = 0%nat).
    { subst first.
      change (ActFetch (p_url p) (request_init p) :: tail ++ events)
        with ([ActFetch (p_url p) (request_init p)] ++ tail ++ events).
      rewrite !count_app, Hfetch, Hnocatch.
      by destruct Htail as [-> | [response ->]]. }
    destruct Hcounts as [Hone Hzero].
    destruct Hrun as [(_ & _ & v & ->) | (E & _ & _ & ->)].
    + exists first. cbn [fst snd]. rewrite Hone, Hzero.
      split; [exact Hfirst |]. split; [lia |]. split; [lia |]. eauto.
    + rewrite Hretry, Hcatch, handleError_hook.
      set (w2 := mkWorld (env w1) (log w1 ++ [ActCatch E])).
      destruct (retried_attempt d (retry_params p None) w2 eq_refl)
        as (second & Hsecond & Hfetch2 & Hcatch2 & Hout).
      exists (first ++ [ActCatch E] ++ second).
      rewrite Hsecond. subst w2. cbn [log]. rewrite Hfirst in Hout |- *.
      rewrite !count_app, Hone, Hzero, Hfetch2, Hcatch2.
      change (count is_fetch [ActCatch E]) with 0%nat.
      change (count is_catch [ActCatch E]) with 1%nat.
      split; [by rewrite <- !app_assoc |].
      split; [lia |]. split; [lia |].
      destruct Hout as [[v Hv] | [E2 HE2]]; [left; eauto |].
      right. split; [reflexivity |]. split; [reflexivity |]. eauto.
Qed.

End ExecutorProperties.

(** * The scenarios of the test suite, and instances of the theorems *)

Example stringify_email :
  Platform.JSON_stringify (VObj [("email", VStr "a@b.com")])
  = Some ("{" +:+ Platform.dquote +:+ "email" +:+ Platform.dquote +:+ ":"
          +:+ Platform.dquote +:+ "a@b.com" +:+ Platform.dquote +:+ "}").
Proof. reflexivity. Qed.

Example stringify_nested :
  Platform.JSON_stringify
    (VObj [("b", VArr [VNum (safe 1 eq_refl); VUndefined; VNull]); ("u", VUndefined); ("a", VBool true)])
  = Some ("{" +:+ Platform.dquote +:+ "b" +:+ Platform.dquote +:+ ":[1,null,null],"
          +:+ Platform.dquote +:+ "a" +:+ Platform.dquote +:+ ":true}").
Proof. reflexivity. Qed.

Example string_of_array :
  Platform.String_of (VArr [VNum (safe (-12) eq_refl); VNull; VStr "x"]) = "-12,,x".
Proof. reflexivity. Qed.

Example isQueryMethod_tokens :
  map isQueryMethod ["GET"; "HEAD"; "OPTIONS"; "POST"; "PUT"; "PATCH"; "DELETE"; "get"]
  = [true; true; true; false; false; false; false; false].
Proof. reflexivity. Qed.

Example resolveHeaders_override :
  resolveHeaders [Some {[ "Authorization" := "Bearer old" ]}; None;
                  Some {[ "Authorization" := "Bearer new"; "Accept" := "text/plain" ]}]
  = {[ "Accept" := "text/plain"; "Authorization" := "Bearer new" ]}.
Proof. by vm_compute. Qed.

(** Test: returns parsed data on success. *)
Example scenario_success :
  let run := execute (Scenario.deps None)
               (Scenario.request VUndefined (Some Scenario.any_schema))
               (Scenario.start [Resolved (Scenario.respond 200 "OK"
                                            (VObj [("id", VStr "1")]))]) in
  fst run = Resolved (VObj [("id", VStr "1")])
  /\ count is_fetch (log (snd run)) = 1%nat
  /\ count is_span (log (snd run)) = 1%nat.
Proof. by vm_compute. Qed.

(** Test: throws FetchError.http with default error body decoding. *)
Example scenario_default_error_body :
  fst (execute (Scenario.deps None) (Scenario.request VUndefined None)
         (Scenario.start [Resolved (Scenario.respond 403 "Forbidden"
                                      (VObj [("error", VStr "Not allowed")]))]))
  = Rejected (ThrowError (toError (HttpError 403 "Forbidden" "Not allowed" VUndefined))).
Proof. by vm_compute. Qed.

(** Test: retries with new headers on 401. *)
Example scenario_retry_with_new_headers :
  let run := execute (Scenario.deps (Some (Scenario.retry_with_token "Bearer new-token")))
               (Scenario.request VUndefined (Some Scenario.any_schema))
               (Scenario.start [Resolved Scenario.unauthorized;
                                Resolved Scenario.users_ok]) in
  fst run = Resolved (VObj [("users", VArr [])])
  /\ (map (fun init => init_headers init !! "Authorization")
          (Scenario.fetch_inits (log (snd run)))
      = [None; Some "Bearer new-token"])
  /\ (map (fun init => init_headers init !! "Accept")
          (Scenario.fetch_inits (log (snd run)))
      = [None; Some "application/json"]).
Proof. by vm_compute. Qed.

(** Test: does not retry more than once (prevents infinite loop). *)
Example scenario_always_retry :
  let run := execute (Scenario.deps (Some Scenario.always_retry))
               (Scenario.request VUndefined None)
               (Scenario.start [Resolved Scenario.unauthorized;
                                Resolved Scenario.unauthorized]) in
  fst run = Rejected (ThrowError (toError (HttpError 401 "Unauthorized" "failed" VUndefined)))
  /\ count is_fetch (log (snd run)) = 2%nat
  /\ count is_catch (log (snd run)) = 1%nat
  /\ count is_span (log (snd run)) = 2%nat.
Proof. by vm_compute. Qed.

(** Test: swallows error when catch handler returns undefined. *)
Example scenario_swallow :
  let run := execute (Scenario.deps (Some Scenario.swallow))
               (Scenario.request VUndefined None)
               (Scenario.start [Resolved Scenario.server_error]) in
  fst run = Resolved VUndefined
  /\ Scenario.caught_errors (log (snd run)) = [HttpError 500 "ISE" "failed" VUndefined].
Proof. by vm_compute. Qed.

(** Test: throws FetchError.parse when the response does not validate. *)
Example scenario_parse_error :
  let run := execute (Scenario.deps None)
               (Scenario.request VUndefined
                  (Some (Scenario.failing_schema "expected string")))
               (Scenario.start [Resolved Scenario.users_ok]) in
  fst run
  = Rejected (ThrowError (toError (ParseError "Unexpected response format"
                                              ["expected string"])))
  /\ err_name (toError (ParseError "Unexpected response format" ["expected string"]))
     = "FetchError.parse"
  /\ count is_span (log (snd run)) = 1%nat.
Proof. by vm_compute. Qed.

(** Test: throws FetchError.network on network failure. *)
Example scenario_network_error :
  fst (execute (Scenario.deps None) (Scenario.request VUndefined None)
         (Scenario.start [Rejected Scenario.failed_to_fetch]))
  = Rejected (ThrowError (toError (NetworkError "Network error: Failed to fetch"))).
Proof. by vm_compute. Qed.

(** A transport that rejects with a value that is no Error. *)
Example scenario_rejected_with_value :
  fst (execute (Scenario.deps None) (Scenario.request VUndefined None)
         (Scenario.start [Rejected (ThrowValue (VObj [("message", VStr "x")]))]))
  = Rejected (ThrowError (toError (NetworkError "Network error: [object Object]"))).
Proof. by vm_compute. Qed.

(** A hook that throws: its error is what execute rejects with. *)
Example scenario_rethrow :
  fst (execute (Scenario.deps (Some (Scenario.rethrow "handler failed")))
         (Scenario.request VUndefined None)
         (Scenario.start [Resolved Scenario.server_error]))
  = Rejected (ThrowError (mkError "Error" "handler failed" None)).
Proof. by vm_compute. Qed.

(** A bigint body: JSON.stringify throws inside the try block, the
    transport is not called and the queued response stays queued. *)
Example scenario_bigint_body :
  let run := execute_body (Scenario.deps None) (Scenario.request VUndefined None)
               (BigIntValue "Do not know how to serialize a BigInt")
               (Scenario.start [Resolved Scenario.users_ok]) in
  fst run
  = Rejected (ThrowError (toError
      (NetworkError "Network error: Do not know how to serialize a BigInt")))
  /\ count is_fetch (log (snd run)) = 0%nat
  /\ count is_span (log (snd run)) = 1%nat
  /\ env (snd run) = [Resolved Scenario.users_ok].
Proof. by vm_compute. Qed.

(** Test: sends body as JSON string. *)
Example scenario_body_text :
  map init_body
      (Scenario.fetch_inits
         (log (snd (execute (Scenario.deps None)
                      (Scenario.request (VObj [("email", VStr "a@b.com")]) None)
                      (Scenario.start [Resolved Scenario.users_ok])))))
  = [Some ("{" +:+ Platform.dquote +:+ "email" +:+ Platform.dquote +:+ ":"
           +:+ Platform.dquote +:+ "a@b.com" +:+ Platform.dquote +:+ "}")].
Proof. by vm_compute. Qed.

(** ** Instances *)




(** A 200 response to a request with no schema: a body that cannot be
    read changes nothing. *)
Lemma schemaless_success_ignores_body_witness :
  d_fetch (Scenario.deps None) "/api/test"
    (request_init (Scenario.request VUndefined None)) [Resolved Scenario.users_ok]
  = (Resolved Scenario.users_ok, [])
  /\ resp_ok Scenario.users_ok = true
  /\ p_schema (Scenario.request VUndefined None) = None
  /\ fst (execute (Scenario.deps None) (Scenario.request VUndefined None)
            (Scenario.start [Resolved Scenario.users_ok]))
     = Resolved VUndefined.
Proof.
  split; [reflexivity |]. split; [reflexivity |]. split; [reflexivity |].
  destruct (schemaless_success_ignores_body (Scenario.deps None)
              (Scenario.request VUndefined None)
              (Scenario.start [Resolved Scenario.users_ok])
              Scenario.users_ok [] eq_refl eq_refl eq_refl)
    as [[events [Hrun _]] _].
  rewrite Hrun. reflexivity.
Defined.

(** The hook of the 401 test, invoked on the first failure. *)
Lemma retry_descriptor_frame_witness :
  default false (p_isRetry (Scenario.request VUndefined None)) = false
  /\ p_catch (Scenario.request VUndefined None)
     ?? d_catch (Scenario.deps (Some (Scenario.retry_with_token "Bearer new-token")))
     = Some (Scenario.retry_with_token "Bearer new-token")
  /\ forall retryOptions : option RequestOptions,
       p_isRetry (retry_params (Scenario.request VUndefined None) retryOptions)
       = Some true
       /\ p_url (retry_params (Scenario.request VUndefined None) retryOptions)
          = "/api/test".
Proof.
  split; [reflexivity |]. split; [reflexivity |].
  intros retryOptions.
  destruct (retry_descriptor_frame
              (Scenario.deps (Some (Scenario.retry_with_token "Bearer new-token")))
              (Scenario.request VUndefined None)
              (HttpError 401 "Unauthorized" "failed" VUndefined)
              (Scenario.start []) (Scenario.retry_with_token "Bearer new-token")
              eq_refl eq_refl) as [_ Hframe].
  destruct (Hframe retryOptions) as (_ & _ & _ & _ & _ & Hretry & Hurl & _).
  split; [exact Hretry | exact Hurl].
Defined.

(** The unconditional retry of the test suite against two 401 answers:
    two transport calls, one hook invocation, the second failure thrown. *)
Lemma retry_depth_is_one_witness :
  default false (p_isRetry (Scenario.request VUndefined None)) = false
  /\ p_catch (Scenario.request VUndefined None)
     ?? d_catch (Scenario.deps (Some Scenario.always_retry))
     = Some (fun _ retry => retry None)
  /\ exists delta : list Action,
       log (snd (execute (Scenario.deps (Some Scenario.always_retry))
                   (Scenario.request VUndefined None)
                   (Scenario.start [Resolved Scenario.unauthorized;
                                    Resolved Scenario.unauthorized])))
       = delta
       /\ (1 <= count is_fetch delta <= 2)%nat
       /\ (count is_catch delta <= 1)%nat.
Proof.
  split; [reflexivity |]. split; [reflexivity |].
  destruct (retry_depth_is_one (Scenario.deps (Some Scenario.always_retry))
              (Scenario.request VUndefined None)
              (Scenario.start [Resolved Scenario.unauthorized;
                               Resolved Scenario.unauthorized]))
    as (_ & _ & _ & Hretry).
  destruct (Hretry eq_refl eq_refl) as (delta & Hlog & Hfetch & Hcatch & _).
  exists delta. split; [exact Hlog |]. split; [exact Hfetch | exact Hcatch].
Defined.

(** A hook that swallows a 500: execute resolves with undefined. *)
Lemma recovery_outcomes_witness :
  handleError (execute (Scenario.deps (Some Scenario.swallow)))
    (Scenario.request VUndefined None) false (Some Scenario.swallow)
    (HttpError 500 "ISE" "failed" VUndefined) (Scenario.start [])
  = (Resolved VUndefined,
     mkWorld [] [ActCatch (HttpError 500 "ISE" "failed" VUndefined)]).
Proof.
  destruct (recovery_outcomes (Scenario.deps (Some Scenario.swallow))
              (Scenario.request VUndefined None)
              (HttpError 500 "ISE" "failed" VUndefined) (Scenario.start []))
    as (_ & _ & Hhook).
  destruct (Hhook Scenario.swallow eq_refl eq_refl) as (Hsame & _).
  exact Hsame.
Defined.

(** ** A hook that asks for a second retry *)

(** C1: the executor at a hook that calls retry() and, when that retry
    fails, calls retry() again, over a transport that answers 401 every
    time.  The hook is invoked once and the transport is called three
    times: two retried attempts for one original call, and the call
    rejects with the failure of the last.  The documentation of
    CatchHandler says that retry() only works once per request. *)
Lemma retry_twice_three_transport_calls :
  let run := execute (Scenario.deps (Some Scenario.retry_twice))
               (Scenario.request VUndefined None)
               (Scenario.start [Resolved Scenario.unauthorized;
                                Resolved Scenario.unauthorized;
                                Resolved Scenario.unauthorized]) in
  count is_fetch (log (snd run)) = 3%nat
  /\ count is_catch (log (snd run)) = 1%nat
  /\ fst run
     = Rejected (ThrowError (toError (HttpError 401 "Unauthorized" "failed" VUndefined))).
Proof. by vm_compute. Qed.

(** ** Where the claims as stated fail *)

(** C3 as stated: with a hook configured, on an attempt that is not a
    retry and fails with 401, the hook returns retry() and the retry
    fails with 500.  execute does not resolve, and what it rejects with is
    not the conversion of the 401 error the attempt produced: it is the
    rejection of the hook. *)
Lemma hook_rejection_settles_execute :
  let d := Scenario.deps (Some Scenario.always_retry) in
  let p := Scenario.request VUndefined None in
  let run := execute d p (Scenario.start [Resolved Scenario.unauthorized;
                                          Resolved Scenario.server_error]) in
  (p_catch p ?? d_catch d = Some Scenario.always_retry)
  /\ default false (p_isRetry p) = false
  /\ Scenario.caught_errors (log (snd run))
     = [HttpError 401 "Unauthorized" "failed" VUndefined]
  /\ fst run = Rejected (ThrowError (toError (HttpError 500 "ISE" "failed" VUndefined)))
  /\ err_name (toError (HttpError 500 "ISE" "failed" VUndefined)) = "FetchError.http"
  /\ err_fetchError (toError (HttpError 500 "ISE" "failed" VUndefined))
     = Some (HttpError 500 "ISE" "failed" VUndefined).
Proof. by vm_compute. Qed.

(** C5 as stated: a validate that throws makes decodeErrorBody reject
    with what it threw, and so does an extractor that throws on the value
    an accepting schema returns; the world is as it was. *)
Lemma throwing_collaborator_rejects_decodeErrorBody :
  Fallible.decodeErrorBody (VObj []) "failed" (Some Fallible.exploding_schema) None
    (Scenario.start [])
  = (Rejected (ThrowError (mkError "Error" "schema exploded" None)), Scenario.start [])
  /\ Fallible.decodeErrorBody (VObj []) "failed" (Some Fallible.accepting_schema)
       (Some Fallible.exploding_extractor) (Scenario.start [])
     = (Rejected (ThrowError
          (mkError "TypeError" "Cannot read properties of undefined" None)),
        Scenario.start []).
Proof. split; reflexivity. Qed.

(** C7 as stated: a body that is a function is defined, and execute
    calls the transport with no body. *)
Lemma function_body_is_defined_and_not_sent :
  let run := execute_body (Scenario.deps None) (Scenario.request VUndefined None)
               FunctionValue (Scenario.start [Resolved Scenario.users_ok]) in
  body_defined FunctionValue = true
  /\ fst run = Resolved VUndefined
  /\ count is_fetch (log (snd run)) = 1%nat
  /\ map init_body (Scenario.fetch_inits (log (snd run))) = [None].
Proof. by vm_compute. Qed.

(** C8 as stated: a layer with the own keys __proto__ and X-A leaves only
    X-A in the result. *)
Lemma resolveHeaders_drops_own_proto_key :
  let layer : Headers := {[ "__proto__" := "x"; "X-A" := "1" ]} in
  layer !! "__proto__" = Some "x"
  /\ resolveHeaders [Some layer] !! "__proto__" = None
  /\ resolveHeaders [Some layer] = {[ "Accept" := "application/json"; "X-A" := "1" ]}.
Proof. by vm_compute. Qed.

(** C9 as stated: the original headers and the replacement headers both
    hold the key __proto__; the hook retries with the replacement, and the
    retried attempt sends headers on which the replacement has not won:
    they do not hold the key at all. *)
Lemma retry_drops_conflicting_proto_key :
  let original : Headers := {[ "__proto__" := "old" ]} in
  let replacement : Headers := {[ "__proto__" := "new" ]} in
  let run := execute (Scenario.deps (Some (Scenario.retry_with_headers replacement)))
               (Samples.with_headers original)
               (Scenario.start [Resolved Scenario.unauthorized;
                                Resolved Scenario.users_ok]) in
  original !! "__proto__" = Some "old"
  /\ replacement !! "__proto__" = Some "new"
  /\ fst run = Resolved VUndefined
  /\ map (fun init => init_headers init !! "__proto__")
         (Scenario.fetch_inits (log (snd run)))
     = [Some "old"; None]
  /\ p_headers (retry_params (Samples.with_headers original)
                  (Some {| ro_headers := Some replacement |}))
     = {[ "Accept" := "application/json" ]}.
Proof. by vm_compute. Qed.

(** * Further properties *)

(** ** Header layers *)

Lemma resolveHeaders_later_silent (layers later : list (option Headers)) (k : string) :
  (forall l : Headers, Some l ∈ later -> l !! k = None) ->
  resolveHeaders (layers ++ later) !! k = resolveHeaders layers !! k.
Proof.
  induction later as [| src later IH] using rev_ind; intros Hsilent.
  - by rewrite app_nil_r.
  - rewrite app_assoc, resolveHeaders_lookup_snoc.
    assert (Hrest : resolveHeaders (layers ++ later) !! k = resolveHeaders layers !! k).
    { apply IH. intros l Hl. apply Hsilent. apply elem_of_app. by left. }
    destruct (String.eqb_spec k "__proto__") as [-> | Hk].
    { symmetry. apply resolveHeaders_no_proto. }
    destruct src as [m |]; [| exact Hrest].
    rewrite (Hsilent m); [exact Hrest |].
    apply elem_of_app. right. by apply list_elem_of_singleton.
Qed.

(** X1: a key other than __proto__ reads as the value of the last layer
    that names it; a key no layer names reads as in the base, the default
    for Accept and nothing for any other key; and the key __proto__ reads
    as nothing whatever the layers hold. *)
Theorem resolveHeaders_last_layer_wins (k : string) :
  (forall (before after : list (option Headers)) (l : Headers) (v : string),
     k <> "__proto__" ->
     l !! k = Some v ->
     (forall l' : Headers, Some l' ∈ after -> l' !! k = None) ->
     resolveHeaders (before ++ Some l :: after) !! k = Some v)
  /\ (forall layers : list (option Headers),
        (forall l : Headers, Some l ∈ layers -> l !! k = None) ->
        resolveHeaders layers !! k
        = if String.eqb k "Accept" then Some "application/json" else None)
  /\ (forall layers : list (option Headers),
        k = "__proto__" -> resolveHeaders layers !! k = None).
Proof.
  split; [| split].
  - intros before after l v Hproto Hk Hsilent.
    change (before ++ Some l :: after) with (before ++ [Some l] ++ after).
    rewrite app_assoc, resolveHeaders_later_silent by exact Hsilent.
    rewrite resolveHeaders_lookup_snoc, Hk.
    by destruct (String.eqb_spec k "__proto__").
  - intros layers Hsilent.
    pose proof (resolveHeaders_later_silent [] layers k Hsilent) as Hbase.
    cbn [app] in Hbase. rewrite Hbase, resolveHeaders_nil.
    destruct (String.eqb_spec k "Accept") as [-> | Hne].
    + apply lookup_singleton_eq.
    + apply lookup_singleton_ne. congruence.
  - intros layers ->. apply resolveHeaders_no_proto.
Qed.

(** X2: merging never invents a key and drops one key only: the keys of
    the result are Accept and the keys of the defined layers, less the
    key __proto__. *)
Theorem resolveHeaders_keys (layers : list (option Headers)) (k : string) :
  is_Some (resolveHeaders layers !! k)
  <-> k <> "__proto__"
      /\ (k = "Accept" \/ exists l : Headers, Some l ∈ layers /\ is_Some (l !! k)).
Proof.
  induction layers as [| src layers IH] using rev_ind.
  - rewrite resolveHeaders_nil. split.
    + intros [v Hv]. apply lookup_singleton_Some in Hv. destruct Hv as [<- _].
      split; [discriminate | by left].
    + intros [_ [-> | (l & Hl & _)]].
      * rewrite lookup_singleton_eq. eauto.
      * by apply elem_of_nil in Hl.
  - rewrite resolveHeaders_lookup_snoc.
    destruct (String.eqb_spec k "__proto__") as [-> | Hk].
    { split; [by intros [? ?] | by intros [? _]]. }
    destruct src as [m |].
    + split.
      * intros Hsome. split; [exact Hk |].
        destruct (m !! k) as [v |] eqn:Hm.
        -- right. exists m. split; [| by rewrite Hm].
           apply elem_of_app. right. by apply list_elem_of_singleton.
        -- apply IH in Hsome. destruct Hsome as [_ [-> | (l & Hl & Hl')]]; [by left |].
           right. exists l. split; [| exact Hl']. apply elem_of_app. by left.
      * intros [_ Hin]. destruct (m !! k) as [v |] eqn:Hm; [eauto |].
        apply IH. split; [exact Hk |].
        destruct Hin as [-> | (l & Hl & Hl')]; [by left |].
        apply elem_of_app in Hl. destruct Hl as [Hl | Hl]; [right; eauto |].
        apply list_elem_of_singleton in Hl. injection Hl as <-.
        rewrite Hm in Hl'. by destruct Hl'.
    + rewrite IH. split.
      * intros [_ [-> | (l & Hl & Hl')]]; (split; [exact Hk |]); [by left |].
        right. exists l. split; [| exact Hl']. apply elem_of_app. by left.
      * intros [_ [-> | (l & Hl & Hl')]]; (split; [exact Hk |]); [by left |].
        apply elem_of_app in Hl. destruct Hl as [Hl | Hl]; [right; eauto |].
        apply list_elem_of_singleton in Hl. discriminate.
Qed.

Lemma union_accept_base (m : Headers) :
  is_Some (m !! "Accept") ->
  m ∪ ({[ "Accept" := "application/json" ]} : Headers) = m.
Proof.
  intros [a Ha]. apply map_eq. intros k. rewrite lookup_union.
  destruct (decide (k = "Accept")) as [-> | Hne].
  - rewrite Ha, lookup_singleton_eq. reflexivity.
  - rewrite lookup_singleton_ne by congruence. by destruct (m !! k).
Qed.

Lemma delete_proto_resolved (layers : list (option Headers)) :
  delete "__proto__" (resolveHeaders layers) = resolveHeaders layers.
Proof.
  apply map_eq. intros k. destruct (decide (k = "__proto__")) as [-> | Hne].
  - by rewrite lookup_delete_eq, resolveHeaders_no_proto.
  - by rewrite lookup_delete_ne by congruence.
Qed.

Lemma resolveHeaders_flatten (first rest : list (option Headers)) :
  resolveHeaders (Some (resolveHeaders first) :: rest) = resolveHeaders (first ++ rest).
Proof.
  induction rest as [| src rest IH] using rev_ind.
  - rewrite app_nil_r.
    change [Some (resolveHeaders first)] with ([] ++ [Some (resolveHeaders first)]).
    rewrite resolveHeaders_snoc, resolveHeaders_nil, delete_proto_resolved.
    apply union_accept_base, resolveHeaders_accept_present.
  - rewrite app_comm_cons, app_assoc, !resolveHeaders_snoc, IH. reflexivity.
Qed.

(** ** The throwable form of a Classified Error *)

(** X4: toError loses nothing: it is injective, the Classified Error can
    be read back from the throwable, and the name of the throwable tells
    the variant, so a caller can branch on either. *)
Theorem toError_keeps_the_error (a b : FetchError) :
  (toError a = toError b -> a = b)
  /\ (err_name (toError a) = "FetchError.network" <-> exists m, a = NetworkError m)
  /\ (err_name (toError a) = "FetchError.http"
      <-> exists status statusText m data, a = HttpError status statusText m data)
  /\ (err_name (toError a) = "FetchError.parse"
      <-> exists m issues, a = ParseError m issues)
  /\ (err_name (toError a) = err_name (toError b) <-> fe_type a = fe_type b).
Proof.
  split; [| split; [| split; [| split]]].
  - intros Heq. assert (H : err_fetchError (toError a) = err_fetchError (toError b))
      by (by rewrite Heq).
    by injection H.
  - destruct a; cbn; split; intros H; try discriminate; eauto;
      destruct H as (? & H); discriminate.
  - destruct a; cbn; split; intros H; try discriminate; eauto 10;
      destruct H as (? & ? & ? & ? & H); discriminate.
  - destruct a; cbn; split; intros H; try discriminate; eauto;
      destruct H as (? & ? & H); discriminate.
  - destruct a, b; cbn; split; intros H; try discriminate; reflexivity.
Qed.

(** ** More on one attempt *)

Section AttemptProperties.

Context {Env : Type} {clk : Clock Env}.

Lemma decodeErrorBody_no_schema (data : value) (fallback : string)
    (errorMessage : option (value -> string)) (w : World Env) :
  decodeErrorBody data fallback None errorMessage w
  = (Resolved {| dec_message :=
                   match data with
                   | VObj fields =>
                       match obj_get "error" fields with
                       | Some (VStr s) => s
                       | _ => fallback
                       end
                   | _ => fallback
                   end;
                 dec_data := None |}, w).
Proof.
  unfold decodeErrorBody.
  destruct data as [| | b | n | s | items | fields]; try reflexivity.
  unfold hasErrorString, has_property, get_property. simpl.
  destruct (obj_get "error" fields) as [field |]; simpl; [| reflexivity].
  by destruct field.
Qed.





(** X6: a response that is not ok, with no error schema on the descriptor
    or in the dependencies, becomes the HTTP error with the status and
    status text of the response, no data, and as message the string-typed
    error field of the parsed body, otherwise the fallback; a body that
    cannot be parsed is read as undefined and gives the fallback.  The
    body is read once, before the event is emitted. *)
Theorem http_failure_default_decoding (d : Deps Env) (p : ExecuteParams Env)
    (w : World Env) (response : Response) (e1 : Env) :
  d_fetch d (p_url p) (request_init p) (env w) = (Resolved response, e1) ->
  resp_ok response = false ->
  p_errorSchema p ?? d_errorSchema d = None ->
  let message :=
    match resp_json response with
    | Resolved (VObj fields) =>
        match obj_get "error" fields with
        | Some (VStr s) => s
        | _ => p_fallback p
        end
    | _ => p_fallback p
    end in
  let error :=
    HttpError (resp_status response) (resp_statusText response) message VUndefined in
  execute d p w
  = handleError (execute d) p (default false (p_isRetry p)) (p_catch p ?? d_catch d)
      error
      (spanned d p w (Some (resp_status response)) false (Some error)
               (parsed p w e1 response)).
Proof.
  intros Hfetch Hok Hschema message error. rewrite execute_unfold.
  destruct (execute_with_http d (execute d) p w response e1 Hfetch Hok)
    as (decoded & Hdec & Hrun).
  rewrite Hrun. specialize (Hdec w). rewrite Hschema, decodeErrorBody_no_schema in Hdec.
  injection Hdec as <-. cbn [dec_message dec_data default].
  assert (Hmsg : match json_value response with
                 | VObj fields =>
                     match obj_get "error" fields with
                     | Some (VStr s) => s
                     | _ => p_fallback p
                     end
                 | _ => p_fallback p
                 end = message).
  { subst message. unfold json_value.
    destruct (resp_json response) as [[] |]; reflexivity. }
  rewrite Hmsg. reflexivity.
Qed.


Lemma execute_with_same_resolved (d d' : Deps Env) self (p : ExecuteParams Env) :
  d_fetch d = d_fetch d' ->
  p_onSpan p ?? d_onSpan d = p_onSpan p ?? d_onSpan d' ->
  p_errorSchema p ?? d_errorSchema d = p_errorSchema p ?? d_errorSchema d' ->
  p_errorMessage p ?? d_errorMessage d = p_errorMessage p ?? d_errorMessage d' ->
  default false (p_isRetry p) = true
  \/ p_catch p ?? d_catch d = p_catch p ?? d_catch d' ->
  execute_with d self p = execute_with d' self p.
Proof.
  intros Hfetch Hspan Hschema Hmessage Hcatch.
  unfold execute_with, call_fetch. rewrite Hfetch, Hspan, Hschema, Hmessage.
  destruct Hcatch as [Hretry | Hcatch].
  - rewrite Hretry. reflexivity.
  - rewrite Hcatch. reflexivity.
Qed.

(** X7: what the descriptor carries shadows what the dependencies carry.
    Two dependency objects with the same transport give the same execute
    on a descriptor when, for each of the sink, the error schema, the
    message extractor and the hook, the descriptor has its own or the two
    objects agree; on a retried attempt the hooks need not agree at all. *)
Theorem request_overrides_dependencies (d d' : Deps Env) (p : ExecuteParams Env) :
  d_fetch d = d_fetch d' ->
  (p_onSpan p = None -> d_onSpan d = d_onSpan d') ->
  (p_errorSchema p = None -> d_errorSchema d = d_errorSchema d') ->
  (p_errorMessage p = None -> d_errorMessage d = d_errorMessage d') ->
  (p_catch p = None -> default false (p_isRetry p) = false -> d_catch d = d_catch d') ->
  execute d p = execute d' p.
Proof.
  intros Hfetch Hspan Hschema Hmessage Hcatch.
  assert (Hspan' : p_onSpan p ?? d_onSpan d = p_onSpan p ?? d_onSpan d').
  { destruct (p_onSpan p); [reflexivity | by apply Hspan]. }
  assert (Hschema' : p_errorSchema p ?? d_errorSchema d
                     = p_errorSchema p ?? d_errorSchema d').
  { destruct (p_errorSchema p); [reflexivity | by apply Hschema]. }
  assert (Hmessage' : p_errorMessage p ?? d_errorMessage d
                      = p_errorMessage p ?? d_errorMessage d').
  { destruct (p_errorMessage p); [reflexivity | by apply Hmessage]. }
  assert (Hcatch' : default false (p_isRetry p) = true
                    \/ p_catch p ?? d_catch d = p_catch p ?? d_catch d').
  { destruct (default false (p_isRetry p)); [by left | right].
    destruct (p_catch p); [reflexivity | by apply Hcatch]. }
  unfold execute.
  rewrite (execute_with_same_resolved d d' _ p) by assumption.
  apply execute_with_ext. intros o.
  apply execute_with_same_resolved; try assumption. by left.
Qed.

(** X8: json() is called at most once in an attempt, after the one
    transport call: never when the transport rejected or when the response
    is ok and there is no response schema, once otherwise. *)
Theorem body_read_at_most_once (d : Deps Env) (p : ExecuteParams Env) (w : World Env) :
  exists (delta : list Action) (w1 : World Env),
    log w1 = log w ++ delta
    /\ count is_fetch delta = 1%nat
    /\ count is_json delta
       = match fst (d_fetch d (p_url p) (request_init p) (env w)) with
         | Rejected _ => 0%nat
         | Resolved response =>
             if resp_ok response
             then match p_schema p with Some _ => 1%nat | None => 0%nat end
             else 1%nat
         end
    /\ ((exists v, execute d p w = (Resolved v, w1))
        \/ (exists E, execute d p w
                      = handleError (execute d) p (default false (p_isRetry p))
                          (p_catch p ?? d_catch d) E w1)).
Proof.
  rewrite execute_unfold.
  assert (Hshape : forall status ok error (w0 : World Env) (own : list Action),
             log w0 = log w ++ own ->
             exists delta,
               log (spanned d p w status ok error w0) = log w ++ delta
               /\ count is_fetch delta = count is_fetch own
               /\ count is_json delta = count is_json own).
  { intros status ok error w0 own Hown.
    destruct (spanned_log d p w w0 status ok error)
      as (events & Hlog & Hfetch & _ & Hjson).
    exists (own ++ events). rewrite Hlog, Hown, <- app_assoc, !count_app, Hfetch, Hjson.
    split; [reflexivity |]. split; lia. }
  destruct (d_fetch d (p_url p) (request_init p) (env w)) as [[response | caught] e1]
    eqn:Hfetch; cbn [fst].
  - destruct (resp_ok response) eqn:Hok.
    + destruct (p_schema p) as [schema |] eqn:Hschema.
      * destruct (validate schema (json_value response)) as [v | issues] eqn:Hvalid.
        -- rewrite (execute_with_valid _ _ _ _ _ _ _ _ Hfetch Hok Hschema Hvalid).
           edestruct (Hshape (Some (resp_status response)) true None
                        (parsed p w e1 response)) as (delta & Hlog & Hf & Hj);
             [reflexivity |].
           exists delta. eexists. split; [exact Hlog |].
           rewrite Hf, Hj. split; [reflexivity |]. split; [reflexivity |]. eauto.
        -- rewrite (execute_with_invalid _ _ _ _ _ _ _ _ Hfetch Hok Hschema Hvalid).
           edestruct (Hshape (Some (resp_status response)) false
                        (Some (ParseError "Unexpected response format"
                                          (map issue_message issues)))
                        (parsed p w e1 response)) as (delta & Hlog & Hf & Hj);
             [reflexivity |].
           exists delta. eexists. split; [exact Hlog |].
           rewrite Hf, Hj. split; [reflexivity |]. split; [reflexivity |]. eauto.
      * rewrite (execute_with_void _ _ _ _ _ _ Hfetch Hok Hschema).
        edestruct (Hshape (Some (resp_status response)) true None (fetched p w e1))
          as (delta & Hlog & Hf & Hj); [reflexivity |].
        exists delta. eexists. split; [exact Hlog |].
        rewrite Hf, Hj. split; [reflexivity |]. split; [reflexivity |]. eauto.
    + destruct (execute_with_http d (execute d) p w response e1 Hfetch Hok)
        as (decoded & _ & Hrun).
      rewrite Hrun.
      edestruct (Hshape (Some (resp_status response)) false
                   (Some (HttpError (resp_status response) (resp_statusText response)
                            (dec_message decoded)
                            (default VUndefined (dec_data decoded))))
                   (parsed p w e1 response)) as (delta & Hlog & Hf & Hj);
        [reflexivity |].
      exists delta. eexists. split; [exact Hlog |].
      rewrite Hf, Hj. split; [reflexivity |]. split; [reflexivity |]. eauto.
  - rewrite (execute_with_rejected _ _ _ _ _ _ Hfetch).
    edestruct (Hshape None false
                 (Some (NetworkError ("Network error: " +:+ failure_detail caught)))
                 (fetched p w e1)) as (delta & Hlog & Hf & Hj); [reflexivity |].
    exists delta. eexists. split; [exact Hlog |].
    rewrite Hf, Hj. split; [reflexivity |]. split; [reflexivity |]. eauto.
Qed.

(** X9: what a retry sends.  The headers of the retried descriptor always
    hold an Accept entry and never the key __proto__.  With no
    replacement headers the retried call differs from the first in its
    headers at most: they are the original headers less the key __proto__,
    with the default Accept entry added when the original holds none.  So
    when the original headers hold an Accept entry and no key __proto__,
    retry() hands the transport the very arguments of the first attempt. *)
Theorem retry_resends_request (p : ExecuteParams Env) :
  (forall o, is_Some (p_headers (retry_params p o) !! "Accept")
             /\ p_headers (retry_params p o) !! "__proto__" = None)
  /\ (forall o,
        is_Some (p_headers p !! "Accept") ->
        match o with Some options => ro_headers options | None => None end = None ->
        p_url (retry_params p o) = p_url p
        /\ init_headers (request_init (retry_params p o))
           = delete "__proto__" (init_headers (request_init p))
        /\ (p_headers p !! "__proto__" = None ->
            request_init (retry_params p o) = request_init p))
  /\ (forall o,
        p_headers p !! "Accept" = None ->
        match o with Some options => ro_headers options | None => None end = None ->
        init_headers (request_init (retry_params p o))
        = <[ "Accept" := "application/json" ]>
            (delete "__proto__" (init_headers (request_init p)))).
Proof.
  assert (Hplain : forall o,
            match o with Some options => ro_headers options | None => None end = None ->
            p_headers (retry_params p o)
            = delete "__proto__" (p_headers p) ∪ {[ "Accept" := "application/json" ]}).
  { intros o Hnone. cbn [retry_params p_headers]. rewrite Hnone.
    change [Some (p_headers p); None] with ([Some (p_headers p)] ++ [None]).
    rewrite resolveHeaders_snoc.
    change [Some (p_headers p)] with ([] ++ [Some (p_headers p)]).
    by rewrite resolveHeaders_snoc. }
  split; [| split].
  - intros o. split; [apply resolveHeaders_accept_present | apply resolveHeaders_no_proto].
  - intros o Haccept Hnone.
    assert (Hheaders : p_headers (retry_params p o) = delete "__proto__" (p_headers p)).
    { rewrite (Hplain o Hnone). apply union_accept_base.
      by rewrite lookup_delete_ne. }
    split; [reflexivity |]. split; [exact Hheaders |].
    intros Hproto. unfold request_init.
    cbn [retry_params p_method p_body p_credentials p_cache].
    change (resolveHeaders
              [Some (p_headers p);
               match o with Some o0 => ro_headers o0 | None => None end])
      with (p_headers (retry_params p o)).
    rewrite Hheaders. f_equal.
    apply map_eq. intros k. destruct (decide (k = "__proto__")) as [-> | Hne].
    + by rewrite lookup_delete_eq.
    + by rewrite lookup_delete_ne by congruence.
  - intros o Haccept Hnone. cbn [request_init init_headers].
    rewrite (Hplain o Hnone). apply map_eq. intros k.
    rewrite lookup_union.
    destruct (decide (k = "Accept")) as [-> | Hne].
    + by rewrite lookup_delete_ne, Haccept, lookup_singleton_eq, lookup_insert_eq.
    + rewrite lookup_singleton_ne, lookup_insert_ne by congruence.
      by destruct (delete "__proto__" (p_headers p) !! k).
Qed.

End AttemptProperties.

(** ** The builder *)

Lemma resolveHeaders_lookup_three (a b c : option Headers) (k : string) :
  resolveHeaders [a; b; c] !! k
  = let at_key (o : option Headers) :=
      match o with Some m => m !! k | None => None end in
    if String.eqb k "__proto__" then None
    else match at_key c, at_key b, at_key a with
         | Some v, _, _ => Some v
         | None, Some v, _ => Some v
         | None, None, Some v => Some v
         | None, None, None =>
             if String.eqb k "Accept" then Some "application/json" else None
         end.
Proof.
  change [a; b; c] with ((([] ++ [a]) ++ [b]) ++ [c]).
  rewrite !resolveHeaders_lookup_snoc, resolveHeaders_nil. cbn zeta.
  destruct (String.eqb k "__proto__"); [reflexivity |].
  assert (Hbase : ({[ "Accept" := "application/json" ]} : Headers) !! k
                  = if String.eqb k "Accept" then Some "application/json" else None).
  { destruct (String.eqb_spec k "Accept") as [-> | Hne].
    - apply lookup_singleton_eq.
    - apply lookup_singleton_ne. congruence. }
  rewrite Hbase.
  destruct c as [c |], b as [b |], a as [a |];
    repeat match goal with |- context [?m !! k] =>
             lazymatch m with
             | resolveHeaders _ => fail
             | _ => destruct (m !! k)
             end
           end; reflexivity.
Qed.

(** X10: the headers run builds.  For a mutation Content-Type is
    application/json whatever the configuration and the request headers
    say; every other key, and Content-Type for a query, reads as the
    request-level header, else the instance-level header, else the default
    (Accept only), except for the key __proto__, which is never there. *)
Theorem run_header_precedence {Env : Type} (config : Builder.FetcherConfig Env)
    (targetUrl : string) (st : Builder.State Env) (method : string) (k : string) :
  let h := p_headers (Builder.run_params config targetUrl st method) in
  let at_key (o : option Headers) :=
    match o with Some m => m !! k | None => None end in
  (isQueryMethod method = false -> h !! "Content-Type" = Some "application/json")
  /\ (isQueryMethod method = true \/ k <> "Content-Type" ->
      h !! k
      = if String.eqb k "__proto__" then None
        else match at_key (Builder.b_headers st),
                   at_key (Builder.read (Builder.c_headers config)) with
             | Some v, _ => Some v
             | None, Some v => Some v
             | None, None =>
                 if String.eqb k "Accept" then Some "application/json" else None
             end).
Proof.
  intros h at_key. subst h. cbn [Builder.run_params p_headers]. split.
  - intros Hmut. rewrite Hmut. cbn [negb].
    rewrite resolveHeaders_lookup_three. cbv beta iota zeta.
    cbn [String.eqb Ascii.eqb Bool.eqb].
    by rewrite lookup_singleton_eq.
  - intros Hk. rewrite resolveHeaders_lookup_three. subst at_key.
    destruct (isQueryMethod method); cbv beta iota zeta; cbn [negb].
    + reflexivity.
    + destruct Hk as [Hk | Hk]; [discriminate |].
      by rewrite lookup_singleton_ne by congruence.
Qed.

(** X11: the method decides the kind of operation and whether a body is
    sent.  GET, HEAD and OPTIONS, spelled exactly so, are queries: the
    descriptor is tagged query and the transport gets no body even when
    one was set on the builder.  Every other method is a mutation: the
    transport gets the JSON text of the body when it is defined. *)
Theorem run_method_classification {Env : Type} (config : Builder.FetcherConfig Env)
    (targetUrl : string) (st : Builder.State Env) (method : string) :
  let params := Builder.run_params config targetUrl st method in
  (isQueryMethod method = true
   <-> method = "GET" \/ method = "HEAD" \/ method = "OPTIONS")
  /\ (isQueryMethod method = true ->
      p_op params = Query /\ init_body (request_init params) = None)
  /\ (isQueryMethod method = false ->
      p_op params = Mutate
      /\ init_body (request_init params)
         = if is_defined (Builder.b_body st)
           then Platform.JSON_stringify (Builder.b_body st) else None).
Proof.
  intros params. split; [| split].
  - unfold isQueryMethod. rewrite !orb_true_iff, !String.eqb_eq. tauto.
  - intros Hq. subst params.
    unfold request_init, Builder.run_params. cbn [p_op p_body init_body].
    by rewrite Hq.
  - intros Hm. subst params.
    unfold request_init, Builder.run_params. cbn [p_op p_body init_body].
    by rewrite Hm.
Qed.

(** X12: the span name and the fallback message of a built descriptor are
    never empty: an unset or empty name reads as the method, a space and
    the url, an unset or empty fallback as Request failed: and the url. *)
Theorem run_name_and_fallback {Env : Type} (config : Builder.FetcherConfig Env)
    (targetUrl : string) (st : Builder.State Env) (method : string) :
  let params := Builder.run_params config targetUrl st method in
  p_name params <> EmptyString
  /\ p_fallback params <> EmptyString
  /\ (Builder.b_name st = EmptyString -> p_name params = method +:+ " " +:+ targetUrl)
  /\ (Builder.b_name st <> EmptyString -> p_name params = Builder.b_name st)
  /\ (Builder.b_fallback st = EmptyString ->
      p_fallback params = "Request failed: " +:+ targetUrl)
  /\ (Builder.b_fallback st <> EmptyString -> p_fallback params = Builder.b_fallback st).
Proof.
  intros params. subst params. cbn [Builder.run_params p_name p_fallback].
  unfold Builder.or_else.
  assert (Hname : method +:+ " " +:+ targetUrl <> EmptyString).
  { destruct method; discriminate. }
  repeat split.
  - destruct (String.eqb_spec (Builder.b_name st) EmptyString); assumption.
  - destruct (String.eqb_spec (Builder.b_fallback st) EmptyString);
      [discriminate | assumption].
  - by intros ->.
  - intros Hne. by destruct (String.eqb_spec (Builder.b_name st) EmptyString).
  - by intros ->.
  - intros Hne. by destruct (String.eqb_spec (Builder.b_fallback st) EmptyString).
Qed.

(** X13: error decoding as the builder wires it.  An error schema set on
    the request without an extractor is paired with the instance-level
    extractor, whatever extractor an earlier errorSchema call on the same
    builder had set: when the body validates, the message is the
    instance-level extractor applied to the decoded value, or the fallback
    when the instance has none. *)
Theorem run_pairs_schema_with_instance_extractor {Env : Type}
    (globalFetch : option (Builder.FetchFn Env)) (config : Builder.FetcherConfig Env)
    (targetUrl : string) (st : Builder.State Env) (method : string)
    (s : StandardSchema) (call : Builder.RunCall Env) :
  Builder.run globalFetch config targetUrl (Builder.errorSchema s None st) method
  = inr call ->
  Builder.rc_errorSchema call = Some s
  /\ Builder.rc_errorMessage call = Builder.read (Builder.c_errorMessage config)
  /\ forall data fallback v (w : World Env),
       validate s data = SRValue v ->
       decodeErrorBody data fallback (Builder.rc_errorSchema call)
                       (Builder.rc_errorMessage call) w
       = (Resolved
            {| dec_message :=
                 match Builder.read (Builder.c_errorMessage config) with
                 | Some g => g v
                 | None => fallback
                 end;
               dec_data := Some v |}, w).
Proof.
  unfold Builder.run. destruct (Builder.getFetchFn globalFetch config) as [t | f];
    [discriminate |].
  intros Hcall. injection Hcall as <-.
  cbn [Builder.rc_errorSchema Builder.rc_errorMessage Builder.errorSchema
       Builder.b_errorSchema Builder.b_errorMessage coalesce].
  split; [reflexivity |]. split; [reflexivity |].
  intros data fallback v w Hvalid.
  unfold decodeErrorBody, bind, ret. by rewrite Hvalid.
Qed.

Lemma spread_absent_r {A} (a : Builder.Slot A) : Builder.spread a Builder.Absent = a.
Proof. reflexivity. Qed.

Lemma spread_absent_l {A} (a : Builder.Slot A) : Builder.spread Builder.Absent a = a.
Proof. by destruct a. Qed.

Lemma spread_assoc {A} (a b c : Builder.Slot A) :
  Builder.spread (Builder.spread a b) c = Builder.spread a (Builder.spread b c).
Proof. by destruct c. Qed.

Lemma spread_idem {A} (a : Builder.Slot A) : Builder.spread a a = a.
Proof. by destruct a. Qed.

(** X14: configure is a shallow merge.  Configuring with nothing changes
    nothing, successive configure calls compose, and a key of the later
    configuration replaces the earlier value whole: instance headers are
    replaced, not merged, and a key present with the value undefined
    clears the earlier value. *)
Theorem configure_is_a_shallow_merge {Env : Type} (a b c : Builder.FetcherConfig Env)
    (targetUrl : string) (st : Builder.State Env) (method : string) :
  Builder.configure a Builder.empty_config = a
  /\ Builder.configure Builder.empty_config a = a
  /\ Builder.configure (Builder.configure a b) c
     = Builder.configure a (Builder.configure b c)
  /\ Builder.configure a a = a
  /\ (Builder.c_headers b = Builder.Absent ->
      p_headers (Builder.run_params (Builder.configure a b) targetUrl st method)
      = p_headers (Builder.run_params a targetUrl st method))
  /\ (forall hb,
        Builder.c_headers b = Builder.Present hb ->
        p_headers (Builder.run_params (Builder.configure a b) targetUrl st method)
        = resolveHeaders
            [hb; Builder.b_headers st;
             if negb (isQueryMethod method)
             then Some {[ "Content-Type" := "application/json" ]} else None]).
Proof.
  split; [| split; [| split; [| split; [| split]]]].
  - by destruct a.
  - destruct a. unfold Builder.configure. cbn. by rewrite !spread_absent_l.
  - unfold Builder.configure. cbn. by rewrite !spread_assoc.
  - destruct a. unfold Builder.configure. cbn. by rewrite !spread_idem.
  - intros Habsent. cbn [Builder.run_params p_headers Builder.configure Builder.c_headers].
    by rewrite Habsent.
  - intros hb Hpresent.
    cbn [Builder.run_params p_headers Builder.configure Builder.c_headers].
    by rewrite Hpresent.
Qed.

(** X15: run needs a transport.  It throws, before anything is called,
    exactly when the configuration has no fetchFn and there is no global
    fetch, and what it throws is the Error that says so; otherwise the
    configured fetchFn is used, and the global fetch only in its absence. *)
Theorem run_needs_a_fetch {Env : Type}
    (globalFetch : option (Builder.FetchFn Env)) (config : Builder.FetcherConfig Env)
    (targetUrl : string) (st : Builder.State Env) (method : string) :
  let outcome := Builder.run globalFetch config targetUrl st method in
  (outcome = inl (ThrowError Builder.no_fetch_error)
   <-> Builder.read (Builder.c_fetchFn config) = None /\ globalFetch = None)
  /\ (forall t, outcome = inl t -> t = ThrowError Builder.no_fetch_error)
  /\ (forall f,
        Builder.read (Builder.c_fetchFn config) = Some f ->
        exists call, outcome = inr call /\ Builder.rc_fetch call = f)
  /\ (forall g,
        Builder.read (Builder.c_fetchFn config) = None ->
        globalFetch = Some g ->
        exists call, outcome = inr call /\ Builder.rc_fetch call = g).
Proof.
  intros outcome. subst outcome. unfold Builder.run, Builder.getFetchFn.
  destruct (Builder.read (Builder.c_fetchFn config)) as [f |];
    [| destruct globalFetch as [g |]].
  - split; [split; [discriminate | by intros [? _]] |].
    split; [discriminate |]. split.
    + intros f' Hf. injection Hf as <-. eauto.
    + discriminate.
  - split; [split; [discriminate | by intros [_ ?]] |].
    split; [discriminate |]. split; [discriminate |].
    intros g' _ Hg. injection Hg as <-. eauto.
  - split; [by split |]. split; [by intros t [= <-] |].
    split; discriminate.
Qed.

(** ** The transports of the end-to-end tests *)

Lemma call_times_app {Env : Type} (fetch : Builder.FetchFn Env) (url : string)
    (init : RequestInit) (n m : nat) (e : Env) :
  TestDoubles.call_times fetch url init (n + m) e
  = (fst (TestDoubles.call_times fetch url init n e)
     ++ fst (TestDoubles.call_times fetch url init m
               (snd (TestDoubles.call_times fetch url init n e))),
     snd (TestDoubles.call_times fetch url init m
            (snd (TestDoubles.call_times fetch url init n e)))).
Proof.
  revert e. induction n as [| n IH]; intros e.
  - cbn. by destruct (TestDoubles.call_times fetch url init m e).
  - cbn [Nat.add TestDoubles.call_times].
    destruct (fetch url init e) as [c e1]. rewrite IH.
    destruct (TestDoubles.call_times fetch url init n e1) as [rest e2].
    reflexivity.
Qed.

Lemma intermittent_failing {Env : Type} (realFetch : Builder.FetchFn Env)
    (failCount : Z) (url : string) (init : RequestInit) (n : nat) (failures : Z) (e : Env) :
  failures + Z.of_nat n <= failCount ->
  TestDoubles.call_times (TestDoubles.createIntermittentFetch realFetch failCount)
    url init n (failures, e)
  = (repeat (Rejected TestDoubles.failed_to_fetch) n, (failures + Z.of_nat n, e)).
Proof.
  revert failures. induction n as [| n IH]; intros failures Hle.
  - cbn. by rewrite Z.add_0_r.
  - cbn [TestDoubles.call_times]. unfold TestDoubles.createIntermittentFetch at 1.
    assert (Hlt : (failures <? failCount) = true) by (apply Z.ltb_lt; lia).
    rewrite Hlt. rewrite IH by lia. cbn [repeat].
    replace (failures + 1 + Z.of_nat n) with (failures + Z.of_nat (S n)) by lia.
    reflexivity.
Qed.

Lemma intermittent_through {Env : Type} (realFetch : Builder.FetchFn Env)
    (failCount : Z) (url : string) (init : RequestInit) (m : nat) (failures : Z) (e : Env) :
  failCount <= failures ->
  TestDoubles.call_times (TestDoubles.createIntermittentFetch realFetch failCount)
    url init m (failures, e)
  = (fst (TestDoubles.call_times realFetch url init m e),
     (failures, snd (TestDoubles.call_times realFetch url init m e))).
Proof.
  intros Hle. revert e. induction m as [| m IH]; intros e; [reflexivity |].
  cbn [TestDoubles.call_times]. unfold TestDoubles.createIntermittentFetch at 1.
  assert (Hge : (failures <? failCount) = false) by (apply Z.ltb_ge; lia).
  rewrite Hge. destruct (realFetch url init e) as [c e1]. rewrite IH.
  by destruct (TestDoubles.call_times realFetch url init m e1).
Qed.

(** X16: createIntermittentFetch(realFetch, k) rejects its first k calls
    with TypeError: Failed to fetch without touching realFetch, and from
    then on is realFetch; its counter stops at k.  With a fail count of
    zero or less it is realFetch from the first call. *)
Theorem intermittent_fetch_fails_then_delegates {Env : Type}
    (realFetch : Builder.FetchFn Env) (url : string) (init : RequestInit)
    (k m : nat) (e : Env) :
  TestDoubles.call_times
    (TestDoubles.createIntermittentFetch realFetch (Z.of_nat k)) url init (k + m) (0, e)
  = (repeat (Rejected TestDoubles.failed_to_fetch) k
     ++ fst (TestDoubles.call_times realFetch url init m e),
     (Z.of_nat k, snd (TestDoubles.call_times realFetch url init m e)))
  /\ forall failCount,
       failCount <= 0 ->
       TestDoubles.call_times
         (TestDoubles.createIntermittentFetch realFetch failCount) url init m (0, e)
       = (fst (TestDoubles.call_times realFetch url init m e),
          (0, snd (TestDoubles.call_times realFetch url init m e))).
Proof.
  split.
  - rewrite call_times_app, intermittent_failing by lia.
    cbn [fst snd]. rewrite Z.add_0_l, intermittent_through by lia. reflexivity.
  - intros failCount Hle. by apply intermittent_through.
Qed.

Section FlakyTransport.

Context {Env : Type} {clk : Clock Env}.

(** X17: one retry absorbs one transient failure, and only one.  Over
    createIntermittentFetch with the hook that answers every error with
    retry() and no sink: with a fail count of 1 the call settles as the
    retried attempt, whose transport call is answered by realFetch; with a
    fail count of 2 or more the call rejects with the converted Network
    error after two transport calls, and realFetch is never reached. *)
Theorem one_retry_absorbs_one_failure (realFetch : Builder.FetchFn Env)
    (failCount : Z) (d : Deps (Z * Env)) (p : ExecuteParams (Z * Env))
    (w : World (Z * Env)) (e : Env) :
  d_fetch d = TestDoubles.createIntermittentFetch realFetch failCount ->
  p_onSpan p ?? d_onSpan d = None ->
  p_catch p ?? d_catch d = Some (fun _ retry => retry None) ->
  default false (p_isRetry p) = false ->
  env w = (0, e) ->
  let error := NetworkError "Network error: Failed to fetch" in
  let first := ActFetch (p_url p) (request_init p) in
  let second := ActFetch (p_url p) (request_init (retry_params p None)) in
  (failCount = 1 ->
     execute d p w
     = execute d (retry_params p None)
         (mkWorld (1, e) (log w ++ [first; ActCatch error]))
     /\ d_fetch d (p_url p) (request_init (retry_params p None)) (1, e)
        = (fst (realFetch (p_url p) (request_init (retry_params p None)) e),
           (1, snd (realFetch (p_url p) (request_init (retry_params p None)) e))))
  /\ (2 <= failCount ->
      execute d p w
      = (Rejected (ThrowError (toError error)),
         mkWorld (2, e) (log w ++ [first; ActCatch error; second]))).
Proof.
  intros Hfetch Hsink Hhook Hretry Henv error first second.
  assert (Hfirst : 1 <= failCount ->
            execute d p w
            = execute d (retry_params p None)
                (mkWorld (1, e) (log w ++ [first; ActCatch error]))).
  { intros Hpos. rewrite execute_unfold.
    assert (Hcall : d_fetch d (p_url p) (request_init p) (env w)
                    = (Rejected TestDoubles.failed_to_fetch, (1, e))).
    { rewrite Hfetch, Henv. unfold TestDoubles.createIntermittentFetch.
      assert (Hlt : (0 <? failCount) = true) by (apply Z.ltb_lt; lia).
      by rewrite Hlt. }
    rewrite (execute_with_rejected _ _ _ _ _ _ Hcall).
    rewrite spanned_no_sink by exact Hsink.
    rewrite Hretry, Hhook.
    etransitivity; [apply handleError_hook |].
    unfold fetched. cbn [env log]. by rewrite <- app_assoc. }
  split.
  - intros ->. split; [apply Hfirst; lia |].
    rewrite Hfetch. unfold TestDoubles.createIntermittentFetch. cbn.
    by destruct (realFetch (p_url p) (request_init (retry_params p None)) e).
  - intros Htwo. rewrite Hfirst by lia. rewrite execute_unfold.
    set (w2 := mkWorld (1, e) (log w ++ [first; ActCatch error])).
    assert (Hcall : d_fetch d (p_url (retry_params p None))
                      (request_init (retry_params p None)) (env w2)
                    = (Rejected TestDoubles.failed_to_fetch, (2, e))).
    { rewrite Hfetch. subst w2. cbn [env]. unfold TestDoubles.createIntermittentFetch.
      assert (Hlt : (1 <? failCount) = true) by (apply Z.ltb_lt; lia).
      by rewrite Hlt. }
    rewrite (execute_with_rejected _ _ _ _ _ _ Hcall).
    rewrite spanned_no_sink by exact Hsink.
    rewrite handleError_escalates by (by left).
    unfold fetched. subst w2. cbn [env log]. by rewrite <- app_assoc.
Qed.

(** X18: over createFailingFetch every attempt ends in the Network error
    whose message is Network error: Failed to fetch; the environment is as
    the attempt found it and the response body is never read.  With no
    hook the call rejects with it. *)
Theorem failing_fetch_is_a_network_error (d : Deps Env) (p : ExecuteParams Env)
    (w : World Env) :
  d_fetch d = TestDoubles.createFailingFetch ->
  let error := NetworkError "Network error: Failed to fetch" in
  let w1 := spanned d p w None false (Some error) (fetched p w (env w)) in
  execute d p w
  = handleError (execute d) p (default false (p_isRetry p)) (p_catch p ?? d_catch d)
      error w1
  /\ (p_catch p ?? d_catch d = None ->
      execute d p w = (Rejected (ThrowError (toError error)), w1)).
Proof.
  intros Hfetch error w1.
  assert (Hcall : d_fetch d (p_url p) (request_init p) (env w)
                  = (Rejected TestDoubles.failed_to_fetch, env w)).
  { by rewrite Hfetch. }
  assert (Hrun : execute d p w
                 = handleError (execute d) p (default false (p_isRetry p))
                     (p_catch p ?? d_catch d) error w1).
  { rewrite execute_unfold. exact (execute_with_rejected _ _ _ _ _ _ Hcall). }
  split; [exact Hrun |].
  intros Hnone. rewrite Hrun. apply handleError_escalates. by right.
Qed.

(** ** The test utilities *)

(** X19: the schemas of the test utilities, seen through execute on an ok
    response.  createMockSchema(output) makes execute resolve with the
    parsed response body, whatever output is, and with undefined when the
    body cannot be parsed; createFailingMockSchema(message) makes the
    attempt fail with the Parse error whose one issue is the message. *)
Theorem mock_schemas_through_execute (d : Deps Env) (p : ExecuteParams Env)
    (w : World Env) (response : Response) (e1 : Env) :
  d_fetch d (p_url p) (request_init p) (env w) = (Resolved response, e1) ->
  resp_ok response = true ->
  (forall output,
     p_schema p = Some (Mock.createMockSchema output) ->
     fst (execute d p w) = Resolved (json_value response)
     /\ (forall t, resp_json response = Rejected t ->
                   fst (execute d p w) = Resolved VUndefined))
  /\ (forall message,
        p_schema p = Some (Mock.createFailingMockSchema message) ->
        let error := ParseError "Unexpected response format" [message] in
        execute d p w
        = handleError (execute d) p (default false (p_isRetry p))
            (p_catch p ?? d_catch d) error
            (spanned d p w (Some (resp_status response)) false (Some error)
                     (parsed p w e1 response))).
Proof.
  intros Hfetch Hok. split.
  - intros output Hschema.
    assert (Hrun : fst (execute d p w) = Resolved (json_value response)).
    { rewrite execute_unfold.
      by rewrite (execute_with_valid _ _ _ _ _ _ _ (json_value response)
                    Hfetch Hok Hschema eq_refl). }
    split; [exact Hrun |].
    intros t Ht. rewrite Hrun. unfold json_value. by rewrite Ht.
  - intros message Hschema error. rewrite execute_unfold.
    exact (execute_with_invalid _ _ _ _ _ _ _ _ Hfetch Hok Hschema eq_refl).
Qed.

End FlakyTransport.

(** X20: what a test sees of a mocked response.  With no ok flag in the
    configuration the response is ok exactly for a status from 200 to 299
    (the default status is 200), and its body always parses, an undefined
    body being the empty object.  So with no hook, no response schema and
    no error schema, execute resolves with undefined in that range and
    otherwise rejects with the HTTP error of that status, whose message is
    the string-typed error field of the body, else the fallback. *)
Theorem mocked_response_through_execute {Env : Type} {clk : Clock Env}
    (d : Deps Env) (p : ExecuteParams Env) (w : World Env)
    (config : Mock.MockResponseConfig) (e1 : Env) :
  d_fetch d (p_url p) (request_init p) (env w)
  = (Resolved (Mock.mock_response config), e1) ->
  Mock.m_ok config = None ->
  p_catch p ?? d_catch d = None ->
  p_errorSchema p ?? d_errorSchema d = None ->
  p_schema p = None ->
  let status := default 200 (Mock.m_status config) in
  fst (execute d p w)
  = if (200 <=? status) && (status <? 300)
    then Resolved VUndefined
    else Rejected (ThrowError (toError
           (HttpError status (default "OK" (Mock.m_statusText config))
              match Mock.m_body config with
              | VObj fields =>
                  match obj_get "error" fields with
                  | Some (VStr s) => s
                  | _ => p_fallback p
                  end
              | _ => p_fallback p
              end
              VUndefined))).
Proof.
  intros Hfetch Hok Hcatch Hschema Hnone status. rewrite execute_unfold.
  assert (Hflag : resp_ok (Mock.mock_response config)
                  = (200 <=? status) && (status <? 300)).
  { unfold Mock.mock_response. cbn [resp_ok]. by rewrite Hok. }
  destruct ((200 <=? status) && (status <? 300)) eqn:Hrange.
  - by rewrite (execute_with_void _ _ _ _ _ _ Hfetch Hflag Hnone).
  - destruct (execute_with_http d (execute d) p w _ e1 Hfetch Hflag)
      as (decoded & Hdec & Hrun).
    rewrite Hrun, handleError_escalates by (by right). cbn [fst].
    specialize (Hdec w). rewrite Hschema, decodeErrorBody_no_schema in Hdec.
    injection Hdec as <-. cbn [dec_message dec_data default].
    unfold json_value, Mock.mock_response. cbn [resp_json resp_status resp_statusText].
    by destruct (Mock.m_body config).
Qed.

(** ** The default error-body shape *)

(** X21: hasErrorString accepts exactly the objects that have an error
    property holding a string; undefined, null, numbers, strings, arrays,
    and objects whose error property is missing or is no string are
    refused. *)
Theorem hasErrorString_iff (data : value) :
  hasErrorString data = true
  <-> exists fields s, data = VObj fields /\ obj_get "error" fields = Some (VStr s).
Proof.
  split.
  - intros H. destruct data as [| | b | n | s | items | fields]; try discriminate H.
    unfold hasErrorString, has_property, get_property in H. simpl in H.
    destruct (obj_get "error" fields) as [[| | | | s | |] |] eqn:Hget; simpl in H;
      try discriminate H.
    eauto.
  - intros (fields & s & -> & Hget).
    unfold hasErrorString, has_property, get_property. simpl.
    by rewrite Hget.
Qed.

(** ** Layers flatten *)

(** X3: merging is associative over layers: a merged map used as the
    first layer of a second merge gives what one merge of all the layers
    gives, and merging a merged map alone changes nothing.  So the headers
    of a retry of a request built by run are the merge of the instance
    headers, the request headers, the content type of a mutation and the
    replacement headers, in this order. *)
Theorem header_layers_flatten {Env : Type} (first rest : list (option Headers))
    (config : Builder.FetcherConfig Env) (targetUrl : string)
    (st : Builder.State Env) (method : string) (o : option RequestOptions) :
  resolveHeaders (Some (resolveHeaders first) :: rest) = resolveHeaders (first ++ rest)
  /\ resolveHeaders [Some (resolveHeaders first)] = resolveHeaders first
  /\ p_headers (retry_params (Builder.run_params config targetUrl st method) o)
     = resolveHeaders
         [Builder.read (Builder.c_headers config);
          Builder.b_headers st;
          if negb (isQueryMethod method)
          then Some {[ "Content-Type" := "application/json" ]} else None;
          match o with Some options => ro_headers options | None => None end].
Proof.
  split; [apply resolveHeaders_flatten |]. split.
  - rewrite resolveHeaders_flatten. by rewrite app_nil_r.
  - cbn [retry_params p_headers Builder.run_params].
    by rewrite resolveHeaders_flatten.
Qed.

(** ** Instances of the further properties *)


(** A 403 answer whose body has a string-typed error field. *)
Lemma http_failure_default_decoding_witness :
  let response := Scenario.respond 403 "Forbidden" (VObj [("error", VStr "Not allowed")]) in
  d_fetch (Scenario.deps None) "/api/test"
    (request_init (Scenario.request VUndefined None)) [Resolved response]
  = (Resolved response, [])
  /\ resp_ok response = false
  /\ p_errorSchema (Scenario.request VUndefined None)
     ?? d_errorSchema (Scenario.deps None) = None
  /\ execute (Scenario.deps None) (Scenario.request VUndefined None)
       (Scenario.start [Resolved response])
     = handleError (execute (Scenario.deps None)) (Scenario.request VUndefined None)
         false None (HttpError 403 "Forbidden" "Not allowed" VUndefined)
         (spanned (Scenario.deps None) (Scenario.request VUndefined None)
            (Scenario.start [Resolved response]) (Some 403) false
            (Some (HttpError 403 "Forbidden" "Not allowed" VUndefined))
            (parsed (Scenario.request VUndefined None)
               (Scenario.start [Resolved response]) [] response)).
Proof.
  split; [reflexivity |]. split; [reflexivity |]. split; [reflexivity |].
  exact (http_failure_default_decoding (Scenario.deps None)
           (Scenario.request VUndefined None)
           (Scenario.start
              [Resolved (Scenario.respond 403 "Forbidden"
                           (VObj [("error", VStr "Not allowed")]))])
           (Scenario.respond 403 "Forbidden" (VObj [("error", VStr "Not allowed")]))
           [] eq_refl eq_refl eq_refl).
Defined.

(** A descriptor with its own hook: the hook of the dependencies is not
    looked at. *)
Lemma request_overrides_dependencies_witness :
  d_fetch (Scenario.deps None) = d_fetch (Scenario.deps (Some Scenario.always_retry))
  /\ d_onSpan (Scenario.deps None) = d_onSpan (Scenario.deps (Some Scenario.always_retry))
  /\ p_catch Samples.own_everything = Some Scenario.swallow
  /\ execute (Scenario.deps None) Samples.own_everything
     = execute (Scenario.deps (Some Scenario.always_retry)) Samples.own_everything.
Proof.
  split; [reflexivity |]. split; [reflexivity |]. split; [reflexivity |].
  apply (request_overrides_dependencies (Scenario.deps None)
           (Scenario.deps (Some Scenario.always_retry)) Samples.own_everything).
  - reflexivity.
  - intros _. reflexivity.
  - intros _. reflexivity.
  - intros _. reflexivity.
  - intros Hnone. discriminate Hnone.
Defined.

(** errorSchema(s) on a fresh builder of an instance that has an extractor. *)
Lemma run_pairs_schema_with_instance_extractor_witness :
  exists call,
    Builder.run None Samples.config "/api/users"
      (Builder.errorSchema Scenario.any_schema None Builder.url) "POST"
    = inr call
    /\ Builder.rc_errorSchema call = Some Scenario.any_schema
    /\ Builder.rc_errorMessage call = Some (fun _ => "from the instance").
Proof.
  eexists. split; [reflexivity |].
  split;
    apply (run_pairs_schema_with_instance_extractor None Samples.config "/api/users"
             Builder.url "POST" Scenario.any_schema _ eq_refl).
Defined.

(** Two failures in a row against the retrying hook. *)
Lemma one_retry_absorbs_one_failure_witness :
  let d := Samples.flaky 2 (Some (fun _ retry => retry None)) in
  let w := mkWorld (0, [Resolved Scenario.users_ok]) [] in
  d_fetch d = TestDoubles.createIntermittentFetch Scenario.scripted_fetch 2
  /\ p_onSpan Samples.request ?? d_onSpan d = None
  /\ p_catch Samples.request ?? d_catch d = Some (fun _ retry => retry None)
  /\ default false (p_isRetry (Samples.request (Env := Z * Scenario.Script))) = false
  /\ env w = (0, [Resolved Scenario.users_ok])
  /\ fst (execute d Samples.request w)
     = Rejected (ThrowError (toError (NetworkError "Network error: Failed to fetch")))
  /\ env (snd (execute d Samples.request w)) = (2, [Resolved Scenario.users_ok]).
Proof.
  cbv zeta.
  split; [reflexivity |]. split; [reflexivity |]. split; [reflexivity |].
  split; [reflexivity |]. split; [reflexivity |].
  destruct (one_retry_absorbs_one_failure Scenario.scripted_fetch 2
              (Samples.flaky 2 (Some (fun _ retry => retry None)))
              Samples.request
              (mkWorld (0, [Resolved Scenario.users_ok]) [])
              [Resolved Scenario.users_ok]
              eq_refl eq_refl eq_refl eq_refl eq_refl) as [_ Htwo].
  rewrite (Htwo ltac:(lia)). split; reflexivity.
Defined.

(** The transport of createFailingFetch, no hook. *)
Lemma failing_fetch_is_a_network_error_witness :
  d_fetch Samples.offline = TestDoubles.createFailingFetch
  /\ fst (execute Samples.offline Samples.request (Scenario.start []))
     = Rejected (ThrowError (toError (NetworkError "Network error: Failed to fetch"))).
Proof.
  split; [reflexivity |].
  destruct (failing_fetch_is_a_network_error Samples.offline Samples.request
              (Scenario.start []) eq_refl) as [_ Hnone].
  rewrite (Hnone eq_refl). reflexivity.
Defined.

(** createMockSchema(null) on a response whose body is an object. *)
Lemma mock_schemas_through_execute_witness :
  let p := Scenario.request VUndefined (Some (Mock.createMockSchema VNull)) in
  d_fetch (Scenario.deps None) "/api/test" (request_init p) [Resolved Scenario.users_ok]
  = (Resolved Scenario.users_ok, [])
  /\ resp_ok Scenario.users_ok = true
  /\ fst (execute (Scenario.deps None) p (Scenario.start [Resolved Scenario.users_ok]))
     = Resolved (VObj [("users", VArr [])]).
Proof.
  cbv zeta. split; [reflexivity |]. split; [reflexivity |].
  destruct (mock_schemas_through_execute (Scenario.deps None)
              (Scenario.request VUndefined (Some (Mock.createMockSchema VNull)))
              (Scenario.start [Resolved Scenario.users_ok])
              Scenario.users_ok [] eq_refl eq_refl) as [Hmock _].
  exact (proj1 (Hmock VNull eq_refl)).
Defined.

(** mockFetchResponse(fetchMock, { status: 304, statusText }) is no
    success. *)
Lemma mocked_response_through_execute_witness :
  let config := {| Mock.m_status := Some 304;
                   Mock.m_statusText := Some "Not Modified";
                   Mock.m_body := VUndefined;
                   Mock.m_ok := None |} in
  d_fetch (Scenario.deps None) "/api/test"
    (request_init (Scenario.request VUndefined None))
    (Mock.mockFetchResponse [] config)
  = (Resolved (Mock.mock_response config), [])
  /\ fst (execute (Scenario.deps None) (Scenario.request VUndefined None)
            (Scenario.start (Mock.mockFetchResponse [] config)))
     = Rejected (ThrowError (toError (HttpError 304 "Not Modified" "failed" VUndefined))).
Proof.
  cbv zeta. split; [reflexivity |].
  exact (mocked_response_through_execute (Scenario.deps None)
           (Scenario.request VUndefined None)
           (Scenario.start
              (Mock.mockFetchResponse []
                 {| Mock.m_status := Some 304;
                    Mock.m_statusText := Some "Not Modified";
                    Mock.m_body := VUndefined;
                    Mock.m_ok := None |}))
           {| Mock.m_status := Some 304;
              Mock.m_statusText := Some "Not Modified";
              Mock.m_body := VUndefined;
              Mock.m_ok := None |}
           [] eq_refl eq_refl eq_refl eq_refl eq_refl).
Defined.
